(** * Notification service: queue, processor, record model and SMS sender

    A shallow embedding of the notification delivery pipeline
    (services/queueService.js, services/notificationProcessor.js,
    models/Notification.js, services/smsService.js, routes/users.js) and the
    properties of its specification that were checked against it.

    Conventions.
    - JavaScript strings are modelled as [string]; [String.length] is the
      [.length] of the source (one character per code unit).
    - The record store is a finite map from record ids to records; reads and
      writes succeed.
    - [new Date()] reads a clock supplied by the environment, and so does
      every call on a transport (mail, Twilio): the environment says
      whether it is accepted or rejected.
    - One run of the job handler is one step of the system. *)

From Stdlib Require Import ZArith String Ascii Lia Bool.
From stdpp Require Import gmap strings list pretty.

Open Scope string_scope.
Open Scope nat_scope.

(** ** JavaScript string primitives *)

Module JsString.

(** [s.substring(a, b)]: the code units from [min a b] up to (excluding)
    [max a b], both clamped to the length of [s]. *)
Definition substring (a b : nat) (s : string) : string :=
  String.substring (Nat.min a b) (Nat.max a b - Nat.min a b) s.


(** Truthiness of an optional string property: [undefined] and the empty
    string are falsy. *)
Definition truthy (v : option string) : bool :=
  match v with
  | Some s => negb (String.eqb s "")
  | None => false
  end.

End JsString.

(** ** Regular expressions

    The fragment of JavaScript regular expressions used by the source:
    literal characters, character ranges, [\d], concatenation, alternation
    and bounded repetition [r{lo,hi}].  Matching is by derivatives and
    decides whether the WHOLE input is matched, which is what a pattern
    anchored as [^...$] (without the [m] flag) asks of [RegExp.test]. *)

Module Regex.

Inductive cls : Type :=
| CChar (c : ascii)            (* a literal character, e.g. [\+] *)
| CRange (lo hi : ascii)       (* [[lo-hi]] *)
| CDigit.                      (* [\d], the ASCII digits *)

Definition code (c : ascii) : nat := nat_of_ascii c.

Definition in_range (lo hi : nat) (c : ascii) : bool :=
  (lo <=? code c) && (code c <=? hi).

Definition cls_mem (k : cls) (c : ascii) : bool :=
  match k with
  | CChar d => Ascii.eqb c d
  | CRange lo hi => in_range (code lo) (code hi) c
  | CDigit => in_range 48 57 c
  end.

Inductive re : Type :=
| Never                          (* matches nothing *)
| Empty                          (* matches the empty string *)
| Class (k : cls)
| Seq (a b : re)
| Alt (a b : re)
| Repeat (r : re) (lo hi : nat). (* r{lo,hi} *)

Fixpoint nullable (r : re) : bool :=
  match r with
  | Never => false
  | Empty => true
  | Class _ => false
  | Seq a b => nullable a && nullable b
  | Alt a b => nullable a || nullable b
  | Repeat r lo _ => (lo =? 0) || nullable r
  end.

Fixpoint deriv (c : ascii) (r : re) : re :=
  match r with
  | Never => Never
  | Empty => Never
  | Class k => if cls_mem k c then Empty else Never
  | Seq a b =>
      if nullable a then Alt (Seq (deriv c a) b) (deriv c b)
      else Seq (deriv c a) b
  | Alt a b => Alt (deriv c a) (deriv c b)
  | Repeat r lo hi =>
      match hi with
      | O => Never
      | S hi' => Seq (deriv c r) (Repeat r (Nat.pred lo) hi')
      end
  end.

Fixpoint matches (r : re) (s : string) : bool :=
  match s with
  | EmptyString => nullable r
  | String c s' => matches (deriv c r) s'
  end.

(** Every character of [s] is in the class [k]. *)
Fixpoint all_in (k : cls) (s : string) : bool :=
  match s with
  | EmptyString => true
  | String c s' => cls_mem k c && all_in k s'
  end.

End Regex.

(** ** JavaScript values met by the queue options *)

Module Js.

(** The values [priorityMap[priority]] can produce: a number stored in the
    literal, [undefined] for an unknown key, or a member inherited from
    [Object.prototype] (a function or object, named by its key). *)
Inductive value : Type :=
| VUndefined
| VNum (n : Z)
| VInherited (name : string).

Definition truthy (v : value) : bool :=
  match v with
  | VUndefined => false
  | VNum n => negb (n =? 0)%Z
  | VInherited _ => true
  end.

(** [a || b] *)
Definition or (a b : value) : value := if truthy a then a else b.

(** The property names every object literal inherits from
    [Object.prototype]. *)
Definition Object_prototype : list string :=
  [ "constructor"; "__proto__"; "hasOwnProperty"; "isPrototypeOf";
    "propertyIsEnumerable"; "toLocaleString"; "toString"; "valueOf";
    "__defineGetter__"; "__defineSetter__"; "__lookupGetter__";
    "__lookupSetter__" ].

Definition inherited (key : string) : bool :=
  existsb (String.eqb key) Object_prototype.

(** [obj[key]] for an object literal with the number-valued own properties
    [own]: own properties first, then the prototype chain. *)
Definition get (own : list (string * Z)) (key : string) : value :=
  match List.find (fun kv => String.eqb key (fst kv)) own with
  | Some kv => VNum (snd kv)
  | None => if inherited key then VInherited key else VUndefined
  end.

(** [`${v}`] for an optional string: [undefined] prints as such. *)
Definition show (v : option string) : string :=
  match v with
  | Some s => s
  | None => "undefined"
  end.

End Js.

(** ** models/Notification.js *)

Module Model.

Inductive NType : Type := Email | Sms | InApp.

Definition type_name (t : NType) : string :=
  match t with
  | Email => "email"
  | Sms => "sms"
  | InApp => "in-app"
  end.

Inductive Status : Type := Pending | Queued | Processing | Sent | Failed.

#[global] Instance Status_eq_dec : EqDecision Status.
Proof. solve_decision. Defined.

Inductive Priority : Type := Low | Medium | High.

Definition priority_name (p : Priority) : string :=
  match p with
  | Low => "low"
  | Medium => "medium"
  | High => "high"
  end.

(** A document of the notification schema.  Dates are clock readings;
    [jobId] is the id Bull assigned to the job. *)
Record Notification : Type := {
  _id : string;
  userId : string;
  type : NType;
  subject : option string;
  message : string;
  recipient : option string;
  status : Status;
  priority : Priority;
  metadata : gmap string string;
  attempts : Z;
  maxAttempts : Z;
  errorMessage : option string;
  sentAt : option Z;
  failedAt : option Z;
  jobId : option nat
}.

(** The in-memory effect of the three schema methods (each is followed by
    [this.save()], see [Effects.save]). *)

Definition set_failed (now : Z) (msg : string) (n : Notification)
  : Notification :=
  {| _id := _id n; userId := userId n; type := type n;
     subject := subject n; message := message n; recipient := recipient n;
     status := Failed;
     priority := priority n; metadata := metadata n;
     attempts := attempts n; maxAttempts := maxAttempts n;
     errorMessage := Some msg;
     sentAt := sentAt n;
     failedAt := Some now;
     jobId := jobId n |}.

Definition set_sent (now : Z) (n : Notification) : Notification :=
  {| _id := _id n; userId := userId n; type := type n;
     subject := subject n; message := message n; recipient := recipient n;
     status := Sent;
     priority := priority n; metadata := metadata n;
     attempts := attempts n; maxAttempts := maxAttempts n;
     errorMessage := errorMessage n;
     sentAt := Some now;
     failedAt := failedAt n;
     jobId := jobId n |}.

Definition set_attempted (n : Notification) : Notification :=
  {| _id := _id n; userId := userId n; type := type n;
     subject := subject n; message := message n; recipient := recipient n;
     status := Processing;
     priority := priority n; metadata := metadata n;
     attempts := (attempts n + 1)%Z; maxAttempts := maxAttempts n;
     errorMessage := errorMessage n;
     sentAt := sentAt n;
     failedAt := failedAt n;
     jobId := jobId n |}.

(** [notification.jobId = job.id; notification.status = "queued"]
    (routes/notifications.js). *)
Definition set_queued (job : nat) (n : Notification) : Notification :=
  {| _id := _id n; userId := userId n; type := type n;
     subject := subject n; message := message n; recipient := recipient n;
     status := Queued;
     priority := priority n; metadata := metadata n;
     attempts := attempts n; maxAttempts := maxAttempts n;
     errorMessage := errorMessage n;
     sentAt := sentAt n;
     failedAt := failedAt n;
     jobId := Some job |}.

Definition is_set {A} (o : option A) : bool :=
  match o with Some _ => true | None => false end.

Definition terminal (s : Status) : bool :=
  match s with Sent | Failed => true | _ => false end.

End Model.

(** ** The Bull queue

    Bull (package.json: bull ^4.11.4) is an external dependency of the
    repository.  The part of its contract the service relies on is modelled
    here from Bull's documented behaviour:
    - job ids are consecutive integers;
    - option [priority] "ranges from 1 (highest priority) to MAX_INT
      (lowest priority)": a job is placed behind every waiting job whose
      priority number is not larger than its own, and the head of the wait
      list is served next;
    - option [attempts] is the total number of attempts: a failing run adds
      one to [attemptsMade], and the job is rescheduled (delayed by the
      backoff) while [attemptsMade < attempts], and fails for good
      otherwise;
    - [job.retry()] moves a failed job back to the wait list and rejects
      for a job in any other state. *)

Module Bull.

Inductive JobState : Type := waiting | active | completed | failed | delayed.

Record JobData : Type := {
  notificationId : string;
  userId : string;
  type : string;
  subject : option string;
  message : string;
  recipient : option string;
  metadata : gmap string string
}.

Record JobOpts : Type := {
  priority : Js.value;
  delay : Z;
  attempts : Z
}.

Record Job : Type := {
  id : nat;
  name : string;
  data : JobData;
  opts : JobOpts;
  attemptsMade : Z;
  state : JobState
}.

(** [wait] holds the waiting job ids with their priority numbers; its head
    is the next job handed to a worker. *)
Record Queue : Type := {
  counter : nat;
  jobs : gmap nat Job;
  wait : list (nat * Z)
}.

Definition empty : Queue := {| counter := 0; jobs := ∅; wait := [] |}.

Definition with_state (s : JobState) (j : Job) : Job :=
  {| id := id j; name := name j; data := data j; opts := opts j;
     attemptsMade := attemptsMade j; state := s |}.

Fixpoint enqueue_by_priority (e : nat * Z) (w : list (nat * Z))
  : list (nat * Z) :=
  match w with
  | [] => [e]
  | x :: w' =>
      if (snd x <=? snd e)%Z then x :: enqueue_by_priority e w'
      else e :: x :: w'
  end.

Definition unwait (jid : nat) (w : list (nat * Z)) : list (nat * Z) :=
  List.filter (fun e => negb (fst e =? jid)) w.

(** The priority number of a job that is in the queue. *)
Definition rank (j : Job) : Z :=
  match priority (opts j) with
  | Js.VNum p => p
  | _ => 0
  end.

(** [queue.add(name, data, opts)]; [None] when the options are rejected
    (the priority is not a number from 1 up). *)
Definition add (nm : string) (d : JobData) (o : JobOpts) (q : Queue)
  : option (Job * Queue) :=
  match priority o with
  | Js.VNum p =>
      if (1 <=? p)%Z then
        let jid := S (counter q) in
        let job := {| id := jid; name := nm; data := d; opts := o;
                      attemptsMade := 0; state := waiting |} in
        Some (job, {| counter := jid;
                      jobs := <[jid := job]> (jobs q);
                      wait := enqueue_by_priority (jid, p) (wait q) |})
      else None
  | _ => None
  end.

(** The job a free worker is handed: the head of the wait list, which
    becomes [active]. *)
Definition next (q : Queue) : option (Job * Queue) :=
  match wait q with
  | [] => None
  | (jid, _) :: rest =>
      match jobs q !! jid with
      | Some job =>
          let job' := with_state active job in
          Some (job', {| counter := counter q;
                         jobs := <[jid := job']> (jobs q);
                         wait := rest |})
      | None => None
      end
  end.

Definition moveToCompleted (j : Job) : Job := with_state completed j.

Definition moveToFailed (j : Job) : Job :=
  let made := (attemptsMade j + 1)%Z in
  {| id := id j; name := name j; data := data j; opts := opts j;
     attemptsMade := made;
     state := if (made <? attempts (opts j))%Z then delayed else failed |}.

(** Replace a job, taking it off the wait list. *)
Definition settle (j : Job) (q : Queue) : Queue :=
  {| counter := counter q;
     jobs := <[id j := j]> (jobs q);
     wait := unwait (id j) (wait q) |}.

(** Put a job (back) on the wait list.  Where in the list it lands plays
    no part in the properties below. *)
Definition release (j : Job) (q : Queue) : Queue :=
  let j' := with_state waiting j in
  {| counter := counter q;
     jobs := <[id j := j']> (jobs q);
     wait := enqueue_by_priority (id j, rank j) (unwait (id j) (wait q)) |}.

(** [job.retry()] *)
Definition retry (j : Job) (q : Queue) : option Queue :=
  match state j with
  | failed => Some (release j q)
  | _ => None
  end.

(** A delayed job whose backoff has elapsed returns to the wait list. *)
Definition promote (j : Job) (q : Queue) : option Queue :=
  match state j with
  | delayed => Some (release j q)
  | _ => None
  end.

Definition runnable (j : Job) : bool :=
  match state j with
  | waiting => true
  | _ => false
  end.

End Bull.

(** ** Effects: store, queue, channel calls and log *)

Module Effects.
Import Model.

Inductive LogLevel : Type := info | warn | error.

Record LogLine : Type := { level : LogLevel; text : string }.

(** What reaches the channels.  [Invoke] records that a channel sender was
    entered for a record; the other events are the calls on the transports
    (the mail transporter, the Twilio client) and the in-app broadcast. *)
Inductive Call : Type :=
| Invoke (channel : string) (nid : string)
| SendMail (to : option string) (subject : option string) (text : string)
| MessagesCreate (to : option string) (body : string)
    (mediaUrl : option string)
| BroadcastToUser (userId : string) (nid : string).

Record World : Type := {
  db : gmap string Notification;
  queue : Bull.Queue;
  calls : list Call;
  log : list LogLine
}.

Definition initial : World :=
  {| db := ∅; queue := Bull.empty; calls := []; log := [] |}.

(** A promise settles with a value or rejects with an [Error], kept as its
    [message]. *)
Inductive Outcome (A : Type) : Type :=
| Return (a : A)
| Throw (message : string).
Arguments Return {A} a.
Arguments Throw {A} message.

Definition M (A : Type) : Type := World -> Outcome A * World.

Definition ret {A} (a : A) : M A := fun w => (Return a, w).

Definition throw {A} (msg : string) : M A := fun w => (Throw msg, w).

Definition bind {A B} (m : M A) (k : A -> M B) : M B :=
  fun w =>
    match m w with
    | (Return a, w') => k a w'
    | (Throw e, w') => (Throw e, w')
    end.

(** [try { m } catch (error) { handler(error.message) }] *)
Definition try_catch {A} (m : M A) (handler : string -> M A) : M A :=
  fun w =>
    match m w with
    | (Return a, w') => (Return a, w')
    | (Throw e, w') => handler e w'
    end.

Declare Scope js_scope.
Delimit Scope js_scope with js.
Notation "x <- m ;; k" := (bind m (fun x => k))
  (at level 100, m at next level, right associativity) : js_scope.
Notation "m ;; k" := (bind m (fun _ => k))
  (at level 100, right associativity) : js_scope.
Open Scope js_scope.

Definition logger (lv : LogLevel) (msg : string) : M unit :=
  fun w =>
    (Return tt,
     {| db := db w; queue := queue w; calls := calls w;
        log := log w ++ [ {| level := lv; text := msg |} ] |}).

Definition emit (c : Call) : M unit :=
  fun w =>
    (Return tt,
     {| db := db w; queue := queue w; calls := calls w ++ [c];
        log := log w |}).

(** [Notification.findById(id)] *)
Definition findById (nid : string) : M (option Notification) :=
  fun w => (Return (db w !! nid), w).

(** [document.save()]: the document replaces the stored one and remains
    the object the caller holds. *)
Definition save (n : Notification) : M Notification :=
  fun w =>
    (Return n,
     {| db := <[_id n := n]> (db w); queue := queue w; calls := calls w;
        log := log w |}).

Definition getQueue : M Bull.Queue := fun w => (Return (queue w), w).

Definition setQueue (q : Bull.Queue) : M unit :=
  fun w =>
    (Return tt,
     {| db := db w; queue := q; calls := calls w; log := log w |}).

(** The schema methods. *)

Definition markAsFailed (now : Z) (errorMessage : string)
  (n : Notification) : M Notification :=
  save (set_failed now errorMessage n).

Definition markAsSent (now : Z) (n : Notification) : M Notification :=
  save (set_sent now n).

Definition incrementAttempts (n : Notification) : M Notification :=
  save (set_attempted n).

(** What the outside world answers during one worker run or one request:
    the clock, whether the mail transporter and the Twilio client were
    created at start-up, how the transport call of this run settles, and
    the id drawn for a new document. *)
Inductive Transport : Type :=
| Accepted (providerId : string)
| Rejected (message : string).

Record Env : Type := {
  now : Z;
  transporter : bool;
  client : bool;
  transport : Transport;
  newId : string
}.

End Effects.

(** ** services/smsService.js *)

Module SmsService.
Import Model Effects.
Import Regex.

(** [/^\+[1-9]\d{1,14}$/] *)
Definition phoneRegex : re :=
  Seq (Class (CChar "+"))
      (Seq (Class (CRange "1" "9")) (Repeat (Class CDigit) 1 14)).

Definition isValidPhoneNumber (phoneNumber : string) : bool :=
  matches phoneRegex phoneNumber.

(** The message after the sender-name and short-URL steps, before the
    length limit is applied. *)
Definition composed (message : string) (metadata : gmap string string)
  : string :=
  let formattedMessage := message in
  let formattedMessage :=
    if JsString.truthy (metadata !! "senderName")
    then Js.show (metadata !! "senderName") +:+ ": " +:+ message
    else formattedMessage in
  if JsString.truthy (metadata !! "shortUrl")
  then formattedMessage +:+
       String "010" (String "010" (Js.show (metadata !! "shortUrl")))
  else formattedMessage.

Definition formatSMSMessage (message : string)
  (metadata : gmap string string) : string :=
  let formattedMessage := composed message metadata in
  let maxLength := 1600 in
  if maxLength <? String.length formattedMessage
  then JsString.substring 0 (maxLength - 3) formattedMessage +:+ "..."
  else formattedMessage.

Inductive SendResult : Type :=
| EmailInfo (messageId : string)
| SmsInfo (messageSid : string)
| InAppInfo (notificationId : string).

(** [this.client.messages.create(smsOptions)] *)
Definition messages_create (env : Env) (to : option string)
  (body : string) (mediaUrl : option string) : M string :=
  emit (MessagesCreate to body mediaUrl) ;;
  match transport env with
  | Accepted sid => ret sid
  | Rejected msg => throw msg
  end.

Definition sendSMS (env : Env) (notification : Notification)
  : M SendResult :=
  try_catch
    (emit (Invoke "sms" (_id notification)) ;;
     if negb (client env) then throw "SMS service not initialized"
     else
       let message := message notification in
       let recipient := recipient notification in
       let metadata := metadata notification in
       if negb (isValidPhoneNumber (Js.show recipient))
       then throw ("Invalid phone number format: " +:+ Js.show recipient)
       else
         let body := formatSMSMessage message metadata in
         let mediaUrl :=
           if JsString.truthy (metadata !! "mediaUrl")
           then metadata !! "mediaUrl" else None in
         sid <- messages_create env recipient body mediaUrl ;;
         logger info "SMS sent successfully" ;;
         ret (SmsInfo sid))
    (fun err =>
       logger error "Failed to send SMS:" ;;
       throw err).

End SmsService.

(** ** services/emailService.js and services/inAppService.js

    The HTML body of the mail and the display payload of the in-app
    notification are not represented; the control flow is. *)

Module Senders.
Import Model Effects SmsService.

Definition sendMail (env : Env) (to subject : option string)
  (text : string) : M string :=
  emit (SendMail to subject text) ;;
  match transport env with
  | Accepted mid => ret mid
  | Rejected msg => throw msg
  end.

Definition sendEmail (env : Env) (notification : Notification)
  : M SendResult :=
  try_catch
    (emit (Invoke "email" (_id notification)) ;;
     if negb (transporter env) then throw "Email transporter not initialized"
     else
       mid <- sendMail env (recipient notification) (subject notification)
                (message notification) ;;
       logger info "Email sent successfully" ;;
       ret (EmailInfo mid))
    (fun err =>
       logger error "Failed to send email:" ;;
       throw err).

(** [broadcastToUser] logs and returns [true]; it never throws. *)
Definition broadcastToUser (userId nid : string) : M bool :=
  logger info "Broadcasting real-time notification" ;;
  emit (BroadcastToUser userId nid) ;;
  ret true.

(** Metadata values are strings, so [metadata.realTime !== false] holds
    and the broadcast always takes place. *)
Definition createInAppNotification (notification : Notification)
  : M SendResult :=
  try_catch
    (emit (Invoke "in-app" (_id notification)) ;;
     logger info "In-app notification created successfully" ;;
     broadcastToUser (Model.userId notification) (_id notification) ;;
     ret (InAppInfo (_id notification)))
    (fun err =>
       logger error "Failed to create in-app notification:" ;;
       throw err).

End Senders.

(** ** services/notificationProcessor.js *)

Module Processor.
Import Model Effects SmsService Senders.

Inductive Result : Type :=
| already_sent
| sent (notificationId : string) (result : SendResult).

(** The [switch (type)] of [processNotification]. *)
Definition dispatch (env : Env) (type : string)
  (notification : Notification) : M SendResult :=
  if String.eqb type "email" then sendEmail env notification
  else if String.eqb type "sms" then sendSMS env notification
  else if String.eqb type "in-app" then createInAppNotification notification
  else throw ("Unknown notification type: " +:+ type).

Definition processNotification (env : Env) (job : Bull.Job) : M Result :=
  let notificationId := Bull.notificationId (Bull.data job) in
  let type := Bull.type (Bull.data job) in
  try_catch
    (logger info ("Processing notification: " +:+ notificationId) ;;
     found <- findById notificationId ;;
     match found with
     | None => throw ("Notification not found: " +:+ notificationId)
     | Some notification =>
         match status notification with
         | Sent =>
             logger info ("Notification already sent: " +:+ notificationId) ;;
             ret already_sent
         | _ =>
             notification <- incrementAttempts notification ;;
             result <- dispatch env type notification ;;
             markAsSent (now env) notification ;;
             logger info
               ("Notification sent successfully: " +:+ notificationId) ;;
             ret (sent notificationId result)
         end
     end)
    (fun err =>
       logger error
         ("Failed to process notification " +:+ notificationId +:+ ":") ;;
       try_catch
         (found <- findById notificationId ;;
          match found with
          | Some notification =>
              if (Bull.attempts (Bull.opts job) <=? Bull.attemptsMade job + 1)%Z
              then markAsFailed (now env) err notification ;; ret tt
              else ret tt
          | None => ret tt
          end)
         (fun updateError =>
            logger error
              ("Failed to update notification " +:+ notificationId
               +:+ " status:")) ;;
       throw err).

End Processor.

(** ** services/queueService.js *)

Module QueueService.
Import Model Effects Processor.

Definition priorityMap : list (string * Z) :=
  [ ("low", 1%Z); ("medium", 2%Z); ("high", 3%Z) ].

(** The job payload built by [addToQueue]. *)
Definition jobData (notification : Notification) : Bull.JobData :=
  {| Bull.notificationId := _id notification;
     Bull.userId := userId notification;
     Bull.type := type_name (type notification);
     Bull.subject := subject notification;
     Bull.message := message notification;
     Bull.recipient := recipient notification;
     Bull.metadata := metadata notification |}.

(** The job options built by [addToQueue]; [priority = None] is an omitted
    argument, which the default parameter replaces by ["medium"]. *)
Definition jobOptions (notification : Notification)
  (priority : option string) : Bull.JobOpts :=
  let priority := default "medium" priority in
  {| Bull.priority := Js.or (Js.get priorityMap priority) (Js.VNum 2);
     Bull.delay := 0;
     Bull.attempts := maxAttempts notification |}.

Definition addToQueue (notification : Notification)
  (priority : option string) : M Bull.Job :=
  try_catch
    (q <- getQueue ;;
     match Bull.add "send-notification" (jobData notification)
             (jobOptions notification priority) q with
     | Some (job, q') =>
         setQueue q' ;;
         logger info ("Notification added to queue: " +:+ _id notification) ;;
         ret job
     | None => throw "job options rejected by the queue"
     end)
    (fun err =>
       logger error "Failed to add notification to queue:" ;;
       throw err).

Definition retryFailedJob (jobId : nat) : M bool :=
  try_catch
    (q <- getQueue ;;
     match Bull.jobs q !! jobId with
     | Some job =>
         if (Bull.attemptsMade job <? Bull.attempts (Bull.opts job))%Z
         then
           match Bull.retry job q with
           | Some q' =>
               setQueue q' ;;
               logger info "Job retried" ;;
               ret true
           | None => throw "Couldn't retry job"
           end
         else ret false
     | None => ret false
     end)
    (fun err =>
       logger error "Failed to retry job" ;;
       throw err).

(** One run of the handler registered with
    [notificationQueue.process(5, processNotification)]: the job is active
    while [processNotification] runs and is then completed or failed by the
    queue, according to how the handler settled. *)
Definition runJob (env : Env) (job : Bull.Job) (w : World) : World :=
  let '(out, w') :=
    processNotification env (Bull.with_state Bull.active job) w in
  let job' :=
    match out with
    | Return _ => Bull.moveToCompleted job
    | Throw _ => Bull.moveToFailed job
    end in
  {| db := db w'; queue := Bull.settle job' (queue w');
     calls := calls w'; log := log w' |}.

(** A free worker takes the head of the wait list and runs it. *)
Definition work (env : Env) (w : World) : option World :=
  match Bull.next (queue w) with
  | Some (job, _) => Some (runJob env job w)
  | None => None
  end.

End QueueService.

(** ** routes/notifications.js and routes/users.js *)

Module Routes.
Import Model Effects QueueService.

Record Body : Type := {
  userId : option string;
  type : option string;
  subject : option string;
  message : option string;
  recipient : option string;
  priority : option string;
  metadata : option (gmap string string)
}.

Inductive Response : Type :=
| r200
| r201 (notificationId : string) (jobId : nat)
| r400
| r404
| r500.

Definition notEmpty (v : option string) : bool := JsString.truthy v.

Definition isIn (allowed : list string) (v : option string) : bool :=
  match v with
  | Some s => existsb (String.eqb s) allowed
  | None => false
  end.

Definition optional (check : option string -> bool) (v : option string)
  : bool :=
  match v with
  | None => true
  | Some _ => check v
  end.

Definition validateNotification (b : Body) : bool :=
  notEmpty (userId b)
  && isIn ["email"; "sms"; "in-app"] (type b)
  && notEmpty (message b)
  && (if isIn ["email"] (type b) then notEmpty (subject b) else true)
  && (if isIn ["email"; "sms"] (type b) then notEmpty (recipient b)
      else true)
  && optional (isIn ["low"; "medium"; "high"]) (priority b).

Definition parseType (s : string) : NType :=
  if String.eqb s "email" then Email
  else if String.eqb s "sms" then Sms
  else InApp.

Definition parsePriority (s : string) : Priority :=
  if String.eqb s "low" then Low
  else if String.eqb s "high" then High
  else Medium.

(** [new Notification({...})] with the schema defaults. *)
Definition newNotification (env : Env) (b : Body) : Notification :=
  {| Model._id := newId env;
     Model.userId := default "" (userId b);
     Model.type := parseType (default "" (type b));
     Model.subject := subject b;
     Model.message := default "" (message b);
     Model.recipient := recipient b;
     Model.status := Pending;
     Model.priority := parsePriority (default "medium" (priority b));
     Model.metadata := default ∅ (metadata b);
     Model.attempts := 0;
     Model.maxAttempts := 3;
     Model.errorMessage := None;
     Model.sentAt := None;
     Model.failedAt := None;
     Model.jobId := None |}.

(** POST /notifications *)
Definition postNotification (env : Env) (b : Body) : M Response :=
  try_catch
    (if negb (validateNotification b) then ret r400
     else
       notification <- save (newNotification env b) ;;
       job <- addToQueue notification
                (Some (default "medium" (priority b))) ;;
       notification <- save (set_queued (Bull.id job) notification) ;;
       logger info
         ("Notification created and queued: " +:+ _id notification) ;;
       ret (r201 (_id notification) (Bull.id job)))
    (fun err =>
       logger error "Error creating notification:" ;;
       ret r500).

(** [Notification.findOne({ _id, userId, type: "in-app" })] *)
Definition findOneInApp (nid uid : string) : M (option Notification) :=
  found <- findById nid ;;
  match found with
  | Some n =>
      if String.eqb (Model.userId n) uid
         && String.eqb (type_name (Model.type n)) "in-app"
      then ret (Some n) else ret None
  | None => ret None
  end.

(** PATCH /users/:id/notifications/:notificationId/read *)
Definition patchRead (env : Env) (uid nid : string) : M Response :=
  try_catch
    (found <- findOneInApp nid uid ;;
     match found with
     | None => ret r404
     | Some notification =>
         markAsSent (now env) notification ;;
         logger info ("In-app notification marked as read: " +:+ nid) ;;
         ret r200
     end)
    (fun err =>
       logger error "Error marking notification as read:" ;;
       ret r500).

End Routes.

(** ** The life of the system

    The events that change records and jobs: a submission, a worker run of
    any waiting job, the return of a delayed job to the wait list, an
    operator retry, and a read-marking request.  A worker run is one step;
    new document ids are fresh. *)

Module Lifecycle.
Import Model Effects QueueService Routes.

Definition setQueueOf (q : Bull.Queue) (w : World) : World :=
  {| db := db w; queue := q; calls := calls w; log := log w |}.

Inductive step : World -> World -> Prop :=
| step_submit env body w :
    db w !! newId env = None ->
    step w (snd (postNotification env body w))
| step_work env jid job w :
    Bull.jobs (queue w) !! jid = Some job ->
    Bull.runnable job = true ->
    step w (runJob env job w)
| step_promote jid job q' w :
    Bull.jobs (queue w) !! jid = Some job ->
    Bull.promote job (queue w) = Some q' ->
    step w (setQueueOf q' w)
| step_retry jid w :
    step w (snd (retryFailedJob jid w))
| step_read env uid nid w :
    step w (snd (patchRead env uid nid w)).

Definition reachable (w : World) : Prop := rtc step initial w.

(** [attempts] never exceeds [maxAttempts]. *)
Definition within_budget (n : Notification) : Prop :=
  (attempts n <= maxAttempts n)%Z.

(** Once the status is terminal exactly one of [sentAt], [failedAt] is set;
    and never both. *)
Definition timestamps_exclusive (n : Notification) : Prop :=
  (terminal (status n) = true ->
   xorb (is_set (sentAt n)) (is_set (failedAt n)) = true)
  /\ (is_set (sentAt n) && is_set (failedAt n) = false).

(** What holds of every record in a reachable world. *)
Definition record_ok (n : Notification) : Prop :=
  (attempts n <= maxAttempts n)%Z
  /\ (is_set (sentAt n) = true <-> status n = Sent)
  /\ (is_set (failedAt n) = true <-> status n = Failed)
  /\ (Model.type n = InApp -> status n <> Failed).

(** What ties a job to its record: the record exists and names the job,
    the job's attempt budget is the record's [maxAttempts], and a job that
    can still run has attempts left and a record that has not failed. *)
Definition job_ok (w : World) (j : Bull.Job) : Prop :=
  exists n,
    db w !! Bull.notificationId (Bull.data j) = Some n
    /\ jobId n = Some (Bull.id j)
    /\ Bull.attempts (Bull.opts j) = maxAttempts n
    /\ Bull.type (Bull.data j) = type_name (Model.type n)
    /\ match Bull.state j with
       | Bull.waiting | Bull.delayed =>
           (Bull.attemptsMade j < Bull.attempts (Bull.opts j))%Z
           /\ (attempts n <= Bull.attemptsMade j)%Z
           /\ status n <> Failed
       | Bull.failed =>
           (Bull.attempts (Bull.opts j) <= Bull.attemptsMade j)%Z
       | _ => True
       end.

Definition Inv (w : World) : Prop :=
  (forall k n, db w !! k = Some n -> _id n = k /\ record_ok n)
  /\ (forall jid j,
        Bull.jobs (queue w) !! jid = Some j ->
        Bull.id j = jid /\ jid <= Bull.counter (queue w) /\ job_ok w j).

End Lifecycle.

(** ** Vocabulary of the specification *)

Module Spec.
Import Model Effects.

Definition is_digit (c : ascii) : bool := Regex.in_range 48 57 c.

Fixpoint all_digits (s : string) : bool :=
  match s with
  | EmptyString => true
  | String c s' => is_digit c && all_digits s'
  end.

Definition first_nonzero (s : string) : bool :=
  match s with
  | EmptyString => false
  | String c _ => negb (Ascii.eqb c "0")
  end.

(** "[+] followed by [lo] to [hi] digits, first digit nonzero". *)
Definition plus_digits (lo hi : nat) (s : string) : Prop :=
  exists digits,
    s = String "+" digits
    /\ lo <= String.length digits <= hi
    /\ all_digits digits = true
    /\ first_nonzero digits = true.

(** The world after one more log line. *)
Definition logged (lv : LogLevel) (msg : string) (w : World) : World :=
  {| db := db w; queue := queue w; calls := calls w;
     log := log w ++ [ {| level := lv; text := msg |} ] |}.

(** The world with one record replaced. *)
Definition stored (n : Notification) (w : World) : World :=
  {| db := <[_id n := n]> (db w); queue := queue w; calls := calls w;
     log := log w |}.

(** The world in which the channel sender is called for record [n]: the
    run was logged and the counted attempt saved. *)
Definition attempting (n : Notification) (w : World) : World :=
  stored (set_attempted n)
    (logged info ("Processing notification: " +:+ _id n) w).

(** [processNotification] treats a failing run as the final one when
    [job.attemptsMade + 1 >= job.opts.attempts]. *)
Definition final_attempt (job : Bull.Job) : bool :=
  (Bull.attempts (Bull.opts job) <=? Bull.attemptsMade job + 1)%Z.

(** The same job handed to [processNotification] once per environment. *)
Fixpoint process_each (envs : list Env) (job : Bull.Job) (w : World)
  : list (Outcome Processor.Result) * World :=
  match envs with
  | [] => ([], w)
  | env :: rest =>
      let '(o, w1) := Processor.processNotification env job w in
      let '(os, w2) := process_each rest job w1 in
      (o :: os, w2)
  end.




(** The four ways a run can go. *)
Inductive run_case (env : Env) (job : Bull.Job) (w w' : World) : Prop :=
| run_missing :
    db w !! Bull.notificationId (Bull.data job) = None ->
    db w' = db w ->
    queue w' = Bull.settle (Bull.moveToFailed job) (queue w) ->
    run_case env job w w'
| run_already_sent n :
    db w !! Bull.notificationId (Bull.data job) = Some n ->
    status n = Sent ->
    db w' = db w ->
    queue w' = Bull.settle (Bull.moveToCompleted job) (queue w) ->
    run_case env job w w'
| run_delivered n r :
    db w !! Bull.notificationId (Bull.data job) = Some n ->
    status n <> Sent ->
    fst (Processor.processNotification env (Bull.with_state Bull.active job) w)
      = Return (Processor.sent (Bull.notificationId (Bull.data job)) r) ->
    db w' = <[Bull.notificationId (Bull.data job) :=
                set_sent (now env) (set_attempted n)]> (db w) ->
    queue w' = Bull.settle (Bull.moveToCompleted job) (queue w) ->
    run_case env job w w'
| run_thrown n e :
    db w !! Bull.notificationId (Bull.data job) = Some n ->
    status n <> Sent ->
    Bull.type (Bull.data job) <> "in-app" ->
    fst (Processor.processNotification env (Bull.with_state Bull.active job) w)
      = Throw e ->
    db w' = <[Bull.notificationId (Bull.data job) :=
                if final_attempt job
                then set_failed (now env) e (set_attempted n)
                else set_attempted n]> (db w) ->
    queue w' = Bull.settle (Bull.moveToFailed job) (queue w) ->
    run_case env job w w'.


End Spec.

(** ** Sample data *)

Module Examples.
Import Model Effects QueueService Routes.

Definition note (nid : string) (t : NType) (to : option string)
  (p : Priority) : Notification :=
  {| Model._id := nid;
     Model.userId := "u1";
     Model.type := t;
     Model.subject := None;
     Model.message := "Hi";
     Model.recipient := to;
     Model.status := Pending;
     Model.priority := p;
     Model.metadata := ∅;
     Model.attempts := 0;
     Model.maxAttempts := 3;
     Model.errorMessage := None;
     Model.sentAt := None;
     Model.failedAt := None;
     Model.jobId := None |}.

Definition noteA : Notification := note "A" Sms (Some "+14155550100") Low.
Definition noteB : Notification := note "B" Sms (Some "+14155550101") High.

(** [noteA] is enqueued with priority ["low"], then [noteB] with priority
    ["high"], and no worker has taken a job yet. *)
Definition low_then_high : World :=
  snd (addToQueue noteB (Some "high")
         (snd (addToQueue noteA (Some "low") initial))).

(** The record the next worker run will be about. *)
Definition served_next (w : World) : option string :=
  match Bull.next (queue w) with
  | Some (job, _) => Some (Bull.notificationId (Bull.data job))
  | None => None
  end.

Definition body (t : string) (to : option string) : Routes.Body :=
  {| Routes.userId := Some "u1";
     Routes.type := Some t;
     Routes.subject := None;
     Routes.message := Some "Hi";
     Routes.recipient := to;
     Routes.priority := None;
     Routes.metadata := None |}.

Definition the_job (jid : nat) (w : World) : Bull.Job :=
  default
    {| Bull.id := 0; Bull.name := "";
       Bull.data := jobData (note "" InApp None Medium);
       Bull.opts := jobOptions (note "" InApp None Medium) None;
       Bull.attemptsMade := 0; Bull.state := Bull.completed |}
    (Bull.jobs (queue w) !! jid).

Definition the_record (nid : string) (w : World) : Notification :=
  default (note "" InApp None Medium) (db w !! nid).

Definition env0 : Env :=
  {| now := 1000; transporter := true; client := true;
     transport := Accepted "SM1"; newId := "n1" |}.

(** An environment whose transport rejects the call. *)
Definition env_down (t : Z) (msg : string) : Env :=
  {| now := t; transporter := true; client := true;
     transport := Rejected msg; newId := "n1" |}.


(** An in-app notification, submitted and delivered by the first run. *)
Definition in_app_submitted : World :=
  snd (postNotification env0 (body "in-app" None) initial).

Definition in_app_delivered : World :=
  runJob env0 (the_job 1 in_app_submitted) in_app_submitted.

(** An SMS notification with a valid recipient, submitted. *)
Definition good_sms_submitted : World :=
  snd (postNotification env0 (body "sms" (Some "+14155550100")) initial).


(** The three outages, run by run: the job fails, returns to the wait
    list, and is run again. *)
Definition run1 : World :=
  runJob (env_down 1 "timeout") (the_job 1 good_sms_submitted)
    good_sms_submitted.
Definition back1 : World :=
  Lifecycle.setQueueOf (Bull.release (the_job 1 run1) (queue run1)) run1.
Definition run2 : World :=
  runJob (env_down 2 "timeout") (the_job 1 back1) back1.
Definition back2 : World :=
  Lifecycle.setQueueOf (Bull.release (the_job 1 run2) (queue run2)) run2.
Definition run3 : World :=
  runJob (env_down 3 "connection reset") (the_job 1 back2) back2.

(** The delivered in-app notification, then marked as read. *)
Definition in_app_read : World :=
  snd (patchRead (env_down 5 "") "u1" "n1" in_app_delivered).


End Examples.

(** ** models/Notification.js: the [isRead] virtual *)

Module Virtuals.
Import Model.

Definition status_name (s : Status) : string :=
  match s with
  | Pending => "pending"
  | Queued => "queued"
  | Processing => "processing"
  | Sent => "sent"
  | Failed => "failed"
  end.


End Virtuals.

(** ** routes/notifications.js: GET and DELETE /notifications/:id *)

Module NotificationRoutes.
Import Model Effects.

Inductive Reply : Type :=
| reply200 (data : option Notification)
| reply404
| reply500.

(** [Notification.findByIdAndDelete(id)] *)
Definition findByIdAndDelete (nid : string) : M (option Notification) :=
  fun w =>
    (Return (db w !! nid),
     {| db := delete nid (db w); queue := queue w; calls := calls w;
        log := log w |}).


(** DELETE /notifications/:id *)
Definition deleteNotification (nid : string) : M Reply :=
  try_catch
    (found <- findByIdAndDelete nid ;;
     match found with
     | None => ret reply404
     | Some _ =>
         logger info ("Notification deleted: " +:+ nid) ;;
         ret (reply200 None)
     end)
    (fun err =>
       logger error "Error deleting notification:" ;;
       ret reply500).

End NotificationRoutes.

(** ** routes/users.js: the listing and the unread count

    The listing is a function of [docs], the documents of the collection in
    the order [sort({ createdAt: -1 })] yields them; query parameters that
    passed [isInt] are numbers. *)

Module UserRoutes.
Import Model Effects Virtuals.

Record Query : Type := {
  page : option nat;
  limit : option nat;
  status : option string;
  type : option string;
  unreadOnly : option string
}.

(** The condition a filter puts on [status]: none, a value, or
    [{ $ne: value }]. *)
Inductive StatusCond : Type :=
| AnyStatus
| StatusIs (s : string)
| StatusNot (s : string).

Record Filter : Type := {
  f_userId : string;
  f_status : StatusCond;
  f_type : option string
}.

Definition matching (f : Filter) (n : Notification) : bool :=
  String.eqb (Model.userId n) (f_userId f)
  && match f_status f with
     | AnyStatus => true
     | StatusIs s => String.eqb (status_name (Model.status n)) s
     | StatusNot s => negb (String.eqb (status_name (Model.status n)) s)
     end
  && match f_type f with
     | None => true
     | Some t => String.eqb (type_name (Model.type n)) t
     end.

Definition optionalInt (lo hi : nat) (v : option nat) : bool :=
  match v with
  | None => true
  | Some k => (lo <=? k) && (k <=? hi)
  end.

Definition optionalMin (lo : nat) (v : option nat) : bool :=
  match v with
  | None => true
  | Some k => lo <=? k
  end.

Definition optionalIn (allowed : list string) (v : option string) : bool :=
  match v with
  | None => true
  | Some s => existsb (String.eqb s) allowed
  end.

Definition validateQuery (q : Query) : bool :=
  optionalMin 1 (page q)
  && optionalInt 1 100 (limit q)
  && optionalIn ["pending"; "queued"; "processing"; "sent"; "failed"]
       (status q)
  && optionalIn ["email"; "sms"; "in-app"] (type q).

(** The filter the handler builds; [unreadOnly] with type [in-app]
    replaces the status condition. *)
Definition buildFilter (uid : string) (q : Query) : Filter :=
  let st :=
    if JsString.truthy (status q) then StatusIs (Js.show (status q))
    else AnyStatus in
  let ty := if JsString.truthy (type q) then type q else None in
  let st :=
    if match unreadOnly q with Some u => String.eqb u "true" | None => false end
       && match type q with Some t => String.eqb t "in-app" | None => false end
    then StatusNot "sent" else st in
  {| f_userId := uid; f_status := st; f_type := ty |}.

(** [Math.ceil(totalItems / limit)] for a positive [limit]. *)
Definition ceil_div (totalItems limit : nat) : nat :=
  (totalItems + limit - 1) / limit.

(** [find(filter).sort(...).skip(skip).limit(limit)] *)
Definition find_page (f : Filter) (skip limit : nat)
  (docs : list Notification) : list Notification :=
  take limit (drop skip (List.filter (matching f) docs)).

Definition countDocuments (f : Filter) (docs : list Notification) : nat :=
  List.length (List.filter (matching f) docs).

Definition all_statuses : list Status :=
  [Pending; Queued; Processing; Sent; Failed].

(** [aggregate([{ $match: { userId } }, { $group: { _id: "$status",
    count: { $sum: 1 } } }])]: one entry for each status that occurs. *)
Definition statusCounts (uid : string) (docs : list Notification)
  : list (Status * nat) :=
  List.filter (fun e => negb (snd e =? 0))
    (List.map
       (fun s =>
          (s,
           List.length
             (List.filter
                (fun n => String.eqb (Model.userId n) uid
                          && bool_decide (Model.status n = s))
                docs)))
       all_statuses).

Record Listing : Type := {
  notifications : list Notification;
  total : nat;
  byStatus : list (Status * nat);
  currentPage : nat;
  totalPages : nat;
  totalItems : nat;
  hasNext : bool;
  hasPrev : bool
}.

(** GET /users/:id/notifications; [None] is the 400 answer. *)
Definition getUserNotifications (uid : string) (q : Query)
  (docs : list Notification) : option Listing :=
  if negb (JsString.truthy (Some uid) && validateQuery q) then None
  else
    let page := default 1 (page q) in
    let limit := default 10 (limit q) in
    let filter := buildFilter uid q in
    let skip := (page - 1) * limit in
    let totalItems := countDocuments filter docs in
    let totalPages := ceil_div totalItems limit in
    Some {| notifications := find_page filter skip limit docs;
            total := totalItems;
            byStatus := statusCounts uid docs;
            currentPage := page;
            totalPages := totalPages;
            totalItems := totalItems;
            hasNext := page <? totalPages;
            hasPrev := 1 <? page |}.

(** [countDocuments({ userId, type: "in-app", status: { $ne: "sent" } })]
    on the store (GET /users/:id/notifications/unread-count). *)
Definition unread (uid : string) (kn : string * Notification) : bool :=
  matching {| f_userId := uid; f_status := StatusNot "sent";
              f_type := Some "in-app" |} (snd kn).

Definition unreadCount (uid : string) (w : World) : nat :=
  size (filter (fun kn => unread uid kn = true) (db w)).

End UserRoutes.

(** ** services/inAppService.js: titles, icons and colours *)

Module InApp.
Import Model.

(** [obj[key] || fallback] for an object literal with string values: an
    own property, a member inherited from [Object.prototype] (named by its
    key), or the fallback. *)
Inductive Looked : Type :=
| Text (s : string)
| Member (name : string).

Definition get_or (own : list (string * string)) (key fallback : string)
  : Looked :=
  match List.find (fun kv => String.eqb key (fst kv)) own with
  | Some kv => if String.eqb (snd kv) "" then Text fallback else Text (snd kv)
  | None => if Js.inherited key then Member key else Text fallback
  end.

Definition titleMap : list (string * string) :=
  [ ("system", "System Notification"); ("marketing", "Special Offer");
    ("update", "Update Available"); ("reminder", "Reminder");
    ("alert", "Important Alert"); ("social", "Social Activity");
    ("general", "Notification") ].

Definition iconMap : list (string * string) :=
  [ ("system", "settings"); ("marketing", "tag"); ("update", "download");
    ("reminder", "clock"); ("alert", "alert-triangle"); ("social", "users");
    ("general", "bell") ].

Definition colorMap : list (string * string) :=
  [ ("high", "#dc3545"); ("medium", "#ffc107"); ("low", "#28a745") ].

(** [s.split(".")[0]]: the text before the first period. *)
Fixpoint before_dot (s : string) : string :=
  match s with
  | EmptyString => EmptyString
  | String c s' =>
      if Ascii.eqb c "." then EmptyString else String c (before_dot s')
  end.

Definition generateTitle (notification : Notification)
  (metadata : gmap string string) : Looked :=
  if JsString.truthy (metadata !! "category")
  then get_or titleMap (Js.show (metadata !! "category")) "Notification"
  else
    let firstSentence := before_dot (message notification) in
    if String.length firstSentence <=? 50 then Text firstSentence
    else Text (JsString.substring 0 47 (message notification) +:+ "...").

(** [iconMap[category] || "bell"]; [category] may be [undefined]. *)
Definition getDefaultIcon (category : option string) : Looked :=
  get_or iconMap (Js.show category) "bell".

Definition getDefaultColor (priority : string) : Looked :=
  get_or colorMap priority "#6c757d".

(** The [title], [icon] and [color] that [formatInAppNotification]
    computes. *)
Definition title (notification : Notification)
  (metadata : gmap string string) : Looked :=
  if JsString.truthy (subject notification)
  then Text (Js.show (subject notification))
  else generateTitle notification metadata.

Definition icon (metadata : gmap string string) : Looked :=
  if JsString.truthy (metadata !! "icon")
  then Text (Js.show (metadata !! "icon"))
  else getDefaultIcon (metadata !! "category").

Definition color (notification : Notification)
  (metadata : gmap string string) : Looked :=
  if JsString.truthy (metadata !! "color")
  then Text (Js.show (metadata !! "color"))
  else getDefaultColor (priority_name (priority notification)).

End InApp.

(** ** services/emailService.js: the message inside the HTML body *)

Module EmailBody.

(** [message.replace(/\n/g, "<br>")] *)
Fixpoint nl2br (message : string) : string :=
  match message with
  | EmptyString => EmptyString
  | String c s' =>
      if Ascii.eqb c "010" then "<br>" +:+ nl2br s'
      else String c (nl2br s')
  end.

Fixpoint count_char (c : ascii) (s : string) : nat :=
  match s with
  | EmptyString => 0
  | String d s' => (if Ascii.eqb d c then 1 else 0) + count_char c s'
  end.

End EmailBody.

(** ** Walking through the pages of a listing *)

Module Paging.
Import Model UserRoutes.

(** The same query for another page. *)
Definition with_page (p : nat) (q : Query) : Query :=
  {| page := Some p; limit := limit q; status := status q;
     type := UserRoutes.type q; unreadOnly := unreadOnly q |}.

(** The notifications answered for page [p] of a query. *)
Definition page_of (uid : string) (q : Query) (docs : list Notification)
  (p : nat) : list Notification :=
  match getUserNotifications uid (with_page p q) docs with
  | Some r => notifications r
  | None => []
  end.

End Paging.

(** ** More sample data *)

Module Samples.
Import Model Effects.

(** An environment that draws the document id [nid]. *)
Definition env_id (nid : string) : Env :=
  {| now := 2000; transporter := true; client := true;
     transport := Accepted "SM2"; newId := nid |}.

(** A job of a type the processor does not know, for the record of
    [Examples.good_sms_submitted]. *)
Definition fax_job : Bull.Job :=
  {| Bull.id := 1; Bull.name := "send-notification";
     Bull.data :=
       {| Bull.notificationId := "n1"; Bull.userId := "u1";
          Bull.type := "fax"; Bull.subject := None; Bull.message := "Hi";
          Bull.recipient := None; Bull.metadata := ∅ |};
     Bull.opts := QueueService.jobOptions (Examples.note "n1" Sms None Medium)
                    None;
     Bull.attemptsMade := 0; Bull.state := Bull.waiting |}.

Fixpoint repeat_char (c : ascii) (k : nat) : string :=
  match k with
  | O => EmptyString
  | S k' => String c (repeat_char c k')
  end.

(** A message of 1601 characters. *)
Definition long_message : string := repeat_char "a" 1601.

(** Twelve in-app notifications of user [u1]; the even ones are sent. *)
Definition inbox : list Notification :=
  List.map
    (fun i =>
       let n := Examples.note (pretty i) InApp None Medium in
       if Nat.even i then set_sent 1 n else n)
    (seq 0 12).

Definition query (p l : option nat) (st ty : option string)
  (unread : option string) : UserRoutes.Query :=
  {| UserRoutes.page := p; UserRoutes.limit := l; UserRoutes.status := st;
     UserRoutes.type := ty; UserRoutes.unreadOnly := unread |}.

End Samples.

(** * Properties *)

Import Model Effects SmsService Senders Processor QueueService.
Import Lifecycle Spec.

(** ** Strings and regular expressions *)

Lemma length_append (a b : string) :
  String.length (a +:+ b) = String.length a + String.length b.
Proof. induction a as [|c a IH]; simpl; [reflexivity | now rewrite IH]. Qed.

Lemma length_prefix (n : nat) (s : string) :
  String.length (String.substring 0 n s) = Nat.min n (String.length s).
Proof.
  revert s; induction n as [|n IH]; intros [|c s]; simpl; try reflexivity.
  now rewrite IH.
Qed.

Lemma length_substring0 (n : nat) (s : string) :
  String.length (JsString.substring 0 n s) = Nat.min n (String.length s).
Proof.
  unfold JsString.substring. rewrite Nat.min_0_l, Nat.max_0_l, Nat.sub_0_r.
  apply length_prefix.
Qed.


Lemma matches_Never s : Regex.matches Regex.Never s = false.
Proof. induction s; simpl; auto. Qed.

Lemma matches_Seq_Never r s : Regex.matches (Regex.Seq Regex.Never r) s = false.
Proof. induction s; simpl; auto. Qed.

Lemma matches_Alt a b s :
  Regex.matches (Regex.Alt a b) s = Regex.matches a s || Regex.matches b s.
Proof. revert a b; induction s as [|c s IH]; intros; simpl; auto. Qed.

Lemma matches_Seq_Empty r s : Regex.matches (Regex.Seq Regex.Empty r) s = Regex.matches r s.
Proof.
  destruct s as [|c s]; simpl; [reflexivity|].
  now rewrite matches_Alt, matches_Seq_Never.
Qed.

Lemma matches_Seq_Class k r s :
  Regex.matches (Regex.Seq (Regex.Class k) r) s =
  match s with
  | EmptyString => false
  | String c s' => Regex.cls_mem k c && Regex.matches r s'
  end.
Proof.
  destruct s as [|c s]; simpl; [reflexivity|].
  destruct (Regex.cls_mem k c); simpl.
  - apply matches_Seq_Empty.
  - apply matches_Seq_Never.
Qed.

Lemma matches_Repeat_Class k lo hi s :
  Regex.matches (Regex.Repeat (Regex.Class k) lo hi) s =
  (lo <=? String.length s) && (String.length s <=? hi) && Regex.all_in k s.
Proof.
  revert lo hi; induction s as [|c s IH]; intros lo hi; simpl.
  - rewrite orb_false_r, andb_true_r, andb_true_r.
    destruct lo; reflexivity.
  - destruct hi as [|hi]; simpl.
    + rewrite matches_Never. now rewrite andb_false_r.
    + destruct (Regex.cls_mem k c); simpl.
      * rewrite matches_Seq_Empty, IH.
        destruct lo; reflexivity.
      * rewrite matches_Seq_Never. now rewrite andb_false_r.
Qed.



(** ** The SMS recipient validator *)

Lemma all_in_digits s : Regex.all_in Regex.CDigit s = all_digits s.
Proof. induction s as [|c s IH]; simpl; [reflexivity | now rewrite IH]. Qed.

Lemma nonzero_digit d :
  Regex.in_range 49 57 d = is_digit d && negb (Ascii.eqb d "0").
Proof. destruct d as [[] [] [] [] [] [] [] []]; reflexivity. Qed.

Lemma plus_sign c : Ascii.eqb c "+" = true <-> c = "+"%char.
Proof. apply Ascii.eqb_eq. Qed.

(** The validator, spelled out on the shape of its argument. *)
Lemma isValidPhoneNumber_shape s :
  isValidPhoneNumber s =
  match s with
  | String c (String d ds) =>
      Ascii.eqb c "+"
      && (Regex.in_range 49 57 d
          && ((1 <=? String.length ds) && (String.length ds <=? 14)
              && all_digits ds))
  | _ => false
  end.
Proof.
  unfold isValidPhoneNumber, phoneRegex.
  rewrite matches_Seq_Class.
  destruct s as [|c s]; [reflexivity|].
  rewrite matches_Seq_Class.
  destruct s as [|d ds]; [now rewrite andb_false_r|].
  rewrite matches_Repeat_Class, all_in_digits.
  reflexivity.
Qed.

(** C8 (as amended): the validator accepts a string exactly when it is a
    [+] followed by 2 to 15 digits whose first digit is nonzero: the
    pattern asks for one nonzero digit and then 1 to 14 further digits. *)
Theorem isValidPhoneNumber_two_to_fifteen_digits (s : string) :
  isValidPhoneNumber s = true <-> plus_digits 2 15 s.
Proof.
  rewrite isValidPhoneNumber_shape. split.
  - destruct s as [|c [|d ds]]; try discriminate.
    rewrite !andb_true_iff, nonzero_digit, andb_true_iff.
    rewrite !Nat.leb_le, plus_sign.
    intros (-> & (Hd & Hnz) & (Hlo & Hhi) & Hall).
    exists (String d ds). simpl. rewrite Hd, Hall, Hnz.
    repeat split; lia.
  - intros (digits & -> & (Hlo & Hhi) & Hall & Hnz).
    destruct digits as [|d ds]; [simpl in Hlo; lia|].
    simpl in Hlo, Hhi, Hall, Hnz. cbv beta iota.
    apply andb_true_iff in Hall as [Hd Hall].
    assert (H1 : (1 <=? String.length ds) = true) by (apply Nat.leb_le; lia).
    assert (H2 : (String.length ds <=? 14) = true) by (apply Nat.leb_le; lia).
    rewrite nonzero_digit, Hd, Hnz, Hall, H1, H2. reflexivity.
Qed.

(** The one-digit number [+1] is a [+] followed by 1 to 15 digits with a
    nonzero first digit, and the validator rejects it. *)
Lemma isValidPhoneNumber_rejects_single_digit :
  ~ (isValidPhoneNumber "+1" = true <-> plus_digits 1 15 "+1").
Proof.
  intros [_ H].
  assert (Hv : isValidPhoneNumber "+1" = true).
  { apply H. exists "1". repeat split; simpl; try reflexivity; lia. }
  vm_compute in Hv. discriminate.
Qed.

(** ** The SMS body *)


(** ** Priorities *)

Lemma jobOptions_named (n : Notification) :
  Bull.priority (jobOptions n (Some "low")) = Js.VNum 1
  /\ Bull.priority (jobOptions n (Some "medium")) = Js.VNum 2
  /\ Bull.priority (jobOptions n (Some "high")) = Js.VNum 3
  /\ Bull.priority (jobOptions n None) = Js.VNum 2.
Proof. repeat split. Qed.

(** A name that is neither one of the three priorities nor inherited from
    [Object.prototype] falls back to rank 2. *)
Lemma jobOptions_fallback (n : Notification) (p : string) :
  p <> "low" -> p <> "medium" -> p <> "high" ->
  Js.inherited p = false ->
  Bull.priority (jobOptions n (Some p)) = Js.VNum 2.
Proof.
  intros Hl Hm Hh Hp. unfold jobOptions, Js.get, priorityMap. simpl.
  apply String.eqb_neq in Hl, Hm, Hh. rewrite Hl, Hm, Hh, Hp.
  reflexivity.
Qed.

(** C10 (failing input): called with the priority ["constructor"], which is
    not one of the three names, [addToQueue] does not give the job rank 2:
    the lookup in the priority table finds the member every object inherits
    under that name, and that value is handed to the queue as priority. *)
Theorem jobOptions_constructor_not_rank_2 (n : Notification) :
  Bull.priority (jobOptions n (Some "constructor"))
  = Js.VInherited "constructor"
  /\ Bull.priority (jobOptions n (Some "constructor")) <> Js.VNum 2.
Proof. split; [reflexivity | discriminate]. Qed.

(** The queue keeps the wait list as the earlier entries with a priority
    number up to the new one, the new entry, then the rest. *)
Lemma enqueue_by_priority_split (e : nat * Z) (w : list (nat * Z)) :
  exists front back,
    w = (front ++ back)%list
    /\ Bull.enqueue_by_priority e w = (front ++ e :: back)%list
    /\ Forall (fun x => (snd x <= snd e)%Z) front
    /\ match back with
       | x :: _ => (snd e < snd x)%Z
       | [] => True
       end.
Proof.
  induction w as [|x w (front & back & Hw & He & Hf & Hb)]; simpl.
  - exists [], []. repeat split; constructor.
  - destruct (snd x <=? snd e)%Z eqn:Hx.
    + exists (x :: front), back. rewrite Hw at 1. rewrite He.
      repeat split; [|exact Hb].
      constructor; [now apply Z.leb_le | exact Hf].
    + exists [], (x :: w). repeat split; [constructor|].
      now apply Z.leb_gt.
Qed.

(** With an empty wait list, a job added with a smaller priority number
    stays ahead of a job added after it with a larger one. *)
Lemma smaller_number_served_first (q q1 q2 : Bull.Queue)
  (d1 d2 : Bull.JobData) (o1 o2 : Bull.JobOpts) (j1 j2 : Bull.Job)
  (p1 p2 : Z) :
  Bull.wait q = [] ->
  Bull.priority o1 = Js.VNum p1 -> Bull.priority o2 = Js.VNum p2 ->
  (p1 <= p2)%Z ->
  Bull.add "send-notification" d1 o1 q = Some (j1, q1) ->
  Bull.add "send-notification" d2 o2 q1 = Some (j2, q2) ->
  exists q3, Bull.next q2 = Some (Bull.with_state Bull.active j1, q3).
Proof.
  intros Hw H1 H2 Hle Ha Hb. unfold Bull.add in Ha, Hb.
  rewrite H1 in Ha. rewrite H2 in Hb.
  destruct (1 <=? p1)%Z; [|discriminate].
  destruct (1 <=? p2)%Z; [|discriminate].
  injection Ha as <- <-. injection Hb as <- <-.
  unfold Bull.next. simpl. rewrite Hw. simpl.
  apply Z.leb_le in Hle. rewrite Hle.
  rewrite lookup_insert_ne by lia. rewrite lookup_insert_eq.
  eexists. reflexivity.
Qed.

(** C1 (failing input): a job enqueued with priority ["low"] and then a job
    enqueued with priority ["high"], both waiting: the next job handed to a
    worker is the low-priority one, because the queue serves the smaller
    priority number first and ["low"] is given 1, ["high"] 3. *)
Theorem low_priority_job_served_before_high :
  Examples.served_next Examples.low_then_high = Some "A"
  /\ Model._id Examples.noteA = "A"
  /\ Model.priority Examples.noteA = Low
  /\ Model.priority Examples.noteB = High.
Proof. vm_compute. repeat split. Qed.

(** ** One run of the processor *)

Lemma processNotification_sent_record env job w n :
  db w !! Bull.notificationId (Bull.data job) = Some n ->
  status n = Sent ->
  processNotification env job w =
  (Return already_sent,
   logged info
     ("Notification already sent: " +:+ Bull.notificationId (Bull.data job))
     (logged info
        ("Processing notification: " +:+ Bull.notificationId (Bull.data job))
        w)).
Proof.
  intros Hn Hs.
  unfold processNotification, try_catch, bind, logger, findById, ret.
  simpl. rewrite Hn, Hs. reflexivity.
Qed.

Lemma dispatch_frame env ty n w :
  db (snd (dispatch env ty n w)) = db w
  /\ queue (snd (dispatch env ty n w)) = queue w.
Proof.
  unfold dispatch, sendEmail, sendSMS, createInAppNotification, sendMail,
    messages_create, broadcastToUser, try_catch, bind, emit, logger, throw,
    ret.
  repeat (match goal with
          | |- context [if ?b then _ else _] => destruct b
          | |- context [match transport ?e with _ => _ end] =>
              destruct (transport e)
          end; simpl); split; reflexivity.
Qed.

(** The in-app sender always delivers. *)
Lemma createInAppNotification_returns n w :
  exists w', createInAppNotification n w = (Return (InAppInfo (_id n)), w').
Proof. eexists. reflexivity. Qed.

Section OneRun.

Variables (env : Env) (job : Bull.Job) (w : World) (n : Notification).

Let nid := Bull.notificationId (Bull.data job).
Let ty := Bull.type (Bull.data job).

Hypothesis Hfound : db w !! nid = Some n.
Hypothesis Hid : _id n = nid.
Hypothesis Hopen : status n <> Sent.

Lemma processNotification_delivered r w2 :
  dispatch env ty (set_attempted n) (attempting n w) = (Return r, w2) ->
  processNotification env job w =
  (Return (sent nid r),
   logged info ("Notification sent successfully: " +:+ nid)
     (stored (set_sent (now env) (set_attempted n)) w2)).
Proof.
  intros Hd.
  unfold processNotification, try_catch, bind, logger, findById, ret,
    incrementAttempts, markAsSent, save.
  fold nid ty. simpl. rewrite Hfound.
  unfold attempting, stored, logged in Hd. rewrite Hid in Hd.
  simpl in Hd.
  destruct (status n) eqn:Hs; try congruence; simpl;
    rewrite Hd; reflexivity.
Qed.

Lemma processNotification_failed e w2 :
  dispatch env ty (set_attempted n) (attempting n w) = (Throw e, w2) ->
  processNotification env job w =
  (Throw e,
   let w3 :=
     logged error ("Failed to process notification " +:+ nid +:+ ":") w2 in
   if final_attempt job
   then stored (set_failed (now env) e (set_attempted n)) w3
   else w3).
Proof.
  intros Hd.
  pose proof (dispatch_frame env ty (set_attempted n) (attempting n w))
    as [Hdb _].
  rewrite Hd in Hdb. simpl in Hdb.
  assert (Hre : db w2 !! nid = Some (set_attempted n)).
  { rewrite Hdb, <- Hid. apply lookup_insert_eq. }
  unfold processNotification, try_catch, bind, logger, findById, ret,
    incrementAttempts, markAsFailed, save, throw.
  fold nid ty. simpl. rewrite Hfound.
  unfold attempting, stored, logged in Hd. rewrite Hid in Hd.
  simpl in Hd. unfold final_attempt.
  destruct (status n) eqn:Hs; try congruence; simpl;
    rewrite Hd; simpl; rewrite Hre;
    destruct (Bull.attempts (Bull.opts job) <=? Bull.attemptsMade job + 1)%Z;
    reflexivity.
Qed.

End OneRun.

Lemma processNotification_missing env job w :
  db w !! Bull.notificationId (Bull.data job) = None ->
  processNotification env job w =
  (Throw ("Notification not found: " +:+ Bull.notificationId (Bull.data job)),
   logged error
     ("Failed to process notification "
      +:+ Bull.notificationId (Bull.data job) +:+ ":")
     (logged info
        ("Processing notification: " +:+ Bull.notificationId (Bull.data job))
        w)).
Proof.
  intros Hn.
  unfold processNotification, try_catch, bind, logger, findById, ret, throw.
  simpl. rewrite Hn. simpl. rewrite Hn. reflexivity.
Qed.

(** ** The short circuit on sent records *)

(** C2: when the record a job refers to already has status [Sent], every
    run of [processNotification] on that job returns [already_sent]; no
    channel sender or transport is called and the store is left as it
    was, however many times the job is run. *)
Theorem already_sent_short_circuit (envs : list Env) (job : Bull.Job)
  (w : World) (n : Notification) :
  db w !! Bull.notificationId (Bull.data job) = Some n ->
  status n = Sent ->
  fst (process_each envs job w)
    = List.map (fun _ => Return already_sent) envs
  /\ db (snd (process_each envs job w)) = db w
  /\ calls (snd (process_each envs job w)) = calls w
  /\ queue (snd (process_each envs job w)) = queue w.
Proof.
  intros Hn Hs. revert w Hn.
  induction envs as [|env envs IH]; intros w Hn; simpl.
  - repeat split.
  - rewrite (processNotification_sent_record env job w n Hn Hs).
    match goal with
    | |- context [process_each envs job ?w1] =>
        destruct (IH w1 Hn) as (Ho & Hd & Hc & Hq);
        destruct (process_each envs job w1) as [os w2]
    end.
    simpl in *. now rewrite Ho, Hd, Hc, Hq.
Qed.

Lemma already_sent_short_circuit_witness :
  fst (process_each [Examples.env0; Examples.env0]
         (Examples.the_job 1 Examples.in_app_delivered)
         Examples.in_app_delivered)
    = [Return already_sent; Return already_sent]
  /\ db (snd (process_each [Examples.env0; Examples.env0]
                (Examples.the_job 1 Examples.in_app_delivered)
                Examples.in_app_delivered))
     = db Examples.in_app_delivered
  /\ calls (snd (process_each [Examples.env0; Examples.env0]
                   (Examples.the_job 1 Examples.in_app_delivered)
                   Examples.in_app_delivered))
     = calls Examples.in_app_delivered
  /\ queue (snd (process_each [Examples.env0; Examples.env0]
                   (Examples.the_job 1 Examples.in_app_delivered)
                   Examples.in_app_delivered))
     = queue Examples.in_app_delivered.
Proof.
  apply (already_sent_short_circuit [Examples.env0; Examples.env0]
           (Examples.the_job 1 Examples.in_app_delivered)
           Examples.in_app_delivered
           (Examples.the_record "n1" Examples.in_app_delivered));
    vm_compute; reflexivity.
Defined.

(** A run that returns [sent] leaves the record with status [Sent], so the
    short circuit applies to every later run. *)
Lemma sent_result_marks_record env job w r w' :
  (forall k n, db w !! k = Some n -> _id n = k) ->
  processNotification env job w
    = (Return (sent (Bull.notificationId (Bull.data job)) r), w') ->
  exists n, db w' !! Bull.notificationId (Bull.data job) = Some n
            /\ status n = Sent.
Proof.
  intros Hkey Hrun.
  destruct (db w !! Bull.notificationId (Bull.data job)) as [n|] eqn:Hn.
  - pose proof (Hkey _ _ Hn) as Hid.
    destruct (decide (status n = Sent)) as [Hs|Hs].
    + rewrite (processNotification_sent_record env job w n Hn Hs) in Hrun.
      discriminate.
    + destruct (dispatch env (Bull.type (Bull.data job)) (set_attempted n)
                  (attempting n w)) as [[r'|e] w2] eqn:Hd.
      * rewrite (processNotification_delivered env job w n Hn Hid Hs r' w2 Hd)
          in Hrun.
        injection Hrun as _ <-. eexists. split.
        -- simpl. rewrite Hid. apply lookup_insert_eq.
        -- reflexivity.
      * rewrite (processNotification_failed env job w n Hn Hid Hs e w2 Hd)
          in Hrun.
        discriminate.
  - rewrite (processNotification_missing env job w Hn) in Hrun.
    discriminate.
Qed.

(** ** Jobs whose record is missing *)

Lemma unwait_settle_lookup (j : Bull.Job) (q : Bull.Queue) :
  Bull.jobs (Bull.settle j q) !! Bull.id j = Some j.
Proof. apply lookup_insert_eq. Qed.




(** ** SMS recipients that fail validation *)





(** ** What a worker run does to the store and the queue *)

Lemma dispatch_in_app env n w :
  exists r w', dispatch env "in-app" n w = (Return r, w').
Proof. do 2 eexists. reflexivity. Qed.

Lemma dispatch_db env ty n w o w' :
  dispatch env ty n w = (o, w') -> db w' = db w /\ queue w' = queue w.
Proof.
  intros H. pose proof (dispatch_frame env ty n w) as F.
  now rewrite H in F.
Qed.

Lemma runJob_cases env job w :
  (forall n, db w !! Bull.notificationId (Bull.data job) = Some n ->
             _id n = Bull.notificationId (Bull.data job)) ->
  run_case env job w (runJob env job w).
Proof.
  intros Hkey. unfold runJob.
  set (aj := Bull.with_state Bull.active job).
  change (Bull.notificationId (Bull.data job))
    with (Bull.notificationId (Bull.data aj)).
  destruct (db w !! Bull.notificationId (Bull.data aj)) as [n|] eqn:Hn.
  - pose proof (Hkey _ Hn) as Hid.
    destruct (decide (status n = Sent)) as [Hs|Hs].
    + rewrite (processNotification_sent_record env aj w n Hn Hs).
      now apply run_already_sent with n.
    + destruct (dispatch env (Bull.type (Bull.data aj)) (set_attempted n)
                  (attempting n w)) as [[r|e] w2] eqn:Hd;
        destruct (dispatch_db _ _ _ _ _ _ Hd) as [Hdb Hq].
      * rewrite (processNotification_delivered env aj w n Hn Hid Hs r w2 Hd).
        apply run_delivered with n r; auto; simpl.
        -- fold aj.
           now rewrite (processNotification_delivered env aj w n Hn Hid Hs
                          r w2 Hd).
        -- rewrite Hdb. simpl. rewrite Hid. apply insert_insert_eq.
        -- now rewrite Hq.
      * pose proof (processNotification_failed env aj w n Hn Hid Hs e w2 Hd)
          as Hrun.
        apply run_thrown with n e; auto.
        -- intros Hty. change (Bull.type (Bull.data aj) = "in-app") in Hty.
           rewrite Hty in Hd.
           destruct (dispatch_in_app env (set_attempted n) (attempting n w))
             as (r & w3 & Hr).
           congruence.
        -- fold aj. now rewrite Hrun.
        -- rewrite Hrun. change (final_attempt aj) with (final_attempt job).
           destruct (final_attempt job); simpl; rewrite Hdb; simpl;
             rewrite Hid; [apply insert_insert_eq | reflexivity].
        -- rewrite Hrun. destruct (final_attempt aj); simpl; now rewrite Hq.
  - rewrite (processNotification_missing env aj w Hn).
    now apply run_missing.
Qed.

(** ** A sender that fails on every attempt *)





(** ** Invariants of the life of the system *)

Lemma Inv_ext w w' :
  db w' = db w -> queue w' = queue w -> Inv w -> Inv w'.
Proof.
  intros Hd Hq [Hrec Hjobs]. unfold Inv, job_ok. rewrite Hd, Hq.
  split; assumption.
Qed.

Lemma Inv_initial : Inv initial.
Proof.
  split; simpl; intros ? ? H; rewrite lookup_empty in H; discriminate.
Qed.

(** A run, or the queue alone, replaces one job and the record it names. *)
Lemma Inv_update w w' job job1 n n1 :
  Inv w ->
  Bull.jobs (queue w) !! Bull.id job = Some job ->
  db w !! Bull.notificationId (Bull.data job) = Some n ->
  jobId n = Some (Bull.id job) ->
  db w' = <[Bull.notificationId (Bull.data job) := n1]> (db w) ->
  Bull.jobs (queue w') = <[Bull.id job := job1]> (Bull.jobs (queue w)) ->
  Bull.counter (queue w') = Bull.counter (queue w) ->
  Bull.id job1 = Bull.id job ->
  Bull.data job1 = Bull.data job ->
  Bull.opts job1 = Bull.opts job ->
  _id n1 = _id n ->
  record_ok n1 ->
  jobId n1 = jobId n ->
  maxAttempts n1 = maxAttempts n ->
  type n1 = type n ->
  match Bull.state job1 with
  | Bull.waiting | Bull.delayed =>
      (Bull.attemptsMade job1 < Bull.attempts (Bull.opts job1))%Z
      /\ (attempts n1 <= Bull.attemptsMade job1)%Z
      /\ status n1 <> Failed
  | Bull.failed =>
      (Bull.attempts (Bull.opts job1) <= Bull.attemptsMade job1)%Z
  | _ => True
  end ->
  Inv w'.
Proof.
  intros [Hrec Hjobs] Hjob Hn Hjid Hdb Hjs Hcnt Hid1 Hdata1 Hopts1 Hidn Hok
    Hjid1 Hmax1 Hty1 Hstate.
  destruct (Hjobs _ _ Hjob) as (_ & Hle & n0 & Hn0 & _ & Hbud & Hty & _).
  assert (n0 = n) by congruence. subst n0.
  split.
  - intros k m Hk. rewrite Hdb in Hk.
    destruct (decide (k = Bull.notificationId (Bull.data job))) as [->|Hne].
    + rewrite lookup_insert_eq in Hk. injection Hk as <-.
      split; [|exact Hok]. rewrite Hidn. now apply (Hrec _ _ Hn).
    + rewrite lookup_insert_ne in Hk by congruence. now apply Hrec.
  - intros jid2 j2 Hj2. rewrite Hjs in Hj2. rewrite Hcnt.
    destruct (decide (jid2 = Bull.id job)) as [->|Hne].
    + rewrite lookup_insert_eq in Hj2. injection Hj2 as <-.
      split; [exact Hid1|]. split; [exact Hle|].
      exists n1. rewrite Hdata1, Hdb, lookup_insert_eq.
      split; [reflexivity|]. split; [congruence|]. split; [congruence|].
      split; [congruence|]. exact Hstate.
    + rewrite lookup_insert_ne in Hj2 by congruence.
      destruct (Hjobs _ _ Hj2) as (Hid2 & Hle2 & n2 & Hn2 & Hjid2 & Hrest).
      split; [exact Hid2|]. split; [exact Hle2|].
      exists n2. split; [|split; [exact Hjid2 | exact Hrest]].
      rewrite Hdb, lookup_insert_ne; [exact Hn2|].
      intros Heq. rewrite <- Heq in Hn2.
      assert (n2 = n) by congruence. subst n2. congruence.
Qed.

(** A request replaces one record and leaves the queue alone. *)
Lemma Inv_update_record w w' nid n n1 :
  Inv w ->
  db w !! nid = Some n ->
  db w' = <[nid := n1]> (db w) ->
  queue w' = queue w ->
  _id n1 = _id n ->
  record_ok n1 ->
  jobId n1 = jobId n ->
  maxAttempts n1 = maxAttempts n ->
  type n1 = type n ->
  attempts n1 = attempts n ->
  status n1 <> Failed ->
  Inv w'.
Proof.
  intros [Hrec Hjobs] Hn Hdb Hq Hidn Hok Hjid1 Hmax1 Hty1 Hat1 Hnf.
  split.
  - intros k m Hk. rewrite Hdb in Hk.
    destruct (decide (k = nid)) as [->|Hne].
    + rewrite lookup_insert_eq in Hk. injection Hk as <-.
      split; [|exact Hok]. rewrite Hidn. now apply (Hrec _ _ Hn).
    + rewrite lookup_insert_ne in Hk by congruence. now apply Hrec.
  - intros jid2 j2 Hj2. rewrite Hq in Hj2 |- *.
    destruct (Hjobs _ _ Hj2)
      as (Hid2 & Hle2 & n2 & Hn2 & Hjid2 & Hbud2 & Hty2 & Hst2).
    split; [exact Hid2|]. split; [exact Hle2|].
    destruct (decide (Bull.notificationId (Bull.data j2) = nid)) as [Heq|Hne].
    + rewrite Heq in Hn2. assert (n2 = n) by congruence. subst n2.
      exists n1. rewrite Heq, Hdb, lookup_insert_eq.
      split; [reflexivity|]. split; [congruence|]. split; [congruence|].
      split; [congruence|].
      destruct (Bull.state j2); trivial;
        destruct Hst2 as (? & ? & ?); repeat split; auto; lia.
    + exists n2. rewrite Hdb, lookup_insert_ne by congruence.
      repeat split; assumption.
Qed.

Lemma Inv_runJob env jid job w :
  Inv w ->
  Bull.jobs (queue w) !! jid = Some job ->
  Bull.runnable job = true ->
  Inv (runJob env job w).
Proof.
  intros HI Hjob Hrun. pose proof HI as [Hrec Hjobs].
  destruct (Hjobs _ _ Hjob)
    as (Hidj & Hcnt & n & Hn & Hjid & Hbud & Hty & Hstate).
  subst jid.
  unfold Bull.runnable in Hrun.
  destruct (Bull.state job) eqn:Hst; try discriminate.
  destruct Hstate as (Hlt & Hat & Hnf).
  destruct (Hrec _ _ Hn) as (Hid & Hbudget & Hsent & Hfailed & Hinapp).
  assert (Hkey : forall x,
             db w !! Bull.notificationId (Bull.data job) = Some x ->
             _id x = Bull.notificationId (Bull.data job)).
  { intros x Hx. now apply (Hrec _ _ Hx). }
  assert (Hnofail : is_set (failedAt n) = false).
  { destruct (is_set (failedAt n)); [|reflexivity].
    exfalso. apply Hnf. now apply Hfailed. }
  destruct (runJob_cases env job w Hkey)
    as [Hm _ _ | x Hx Hsx Hdb Hq | x r Hx Hsx _ Hdb Hq
        | x e Hx Hsx Hnia _ Hdb Hq];
    try congruence;
    assert (x = n) by congruence; subst x.
  - (* already sent *)
    apply (Inv_update w _ job (Bull.moveToCompleted job) n n); auto.
    + rewrite Hdb. symmetry. now apply insert_id.
    + now rewrite Hq.
    + now rewrite Hq.
    + now apply (Hrec _ _ Hn).
    + exact I.
  - (* delivered *)
    assert (Hnosent : is_set (sentAt n) = false).
    { destruct (is_set (sentAt n)); [|reflexivity].
      exfalso. apply Hsx. now apply Hsent. }
    apply (Inv_update w _ job (Bull.moveToCompleted job) n
             (set_sent (now env) (set_attempted n))); auto.
    + now rewrite Hq.
    + now rewrite Hq.
    + unfold record_ok. simpl. rewrite Hnofail.
      split; [lia|]. split; [tauto|]. split; [|discriminate].
      split; discriminate.
    + exact I.
  - (* thrown *)
    assert (Hnosent : is_set (sentAt n) = false).
    { destruct (is_set (sentAt n)); [|reflexivity].
      exfalso. apply Hsx. now apply Hsent. }
    assert (Hnotapp : type n <> InApp).
    { intros Heq. rewrite Heq in Hty. simpl in Hty. congruence. }
    apply (Inv_update w _ job (Bull.moveToFailed job) n
             (if final_attempt job
              then set_failed (now env) e (set_attempted n)
              else set_attempted n)); auto;
      try (destruct (final_attempt job); reflexivity).
    + now rewrite Hq.
    + now rewrite Hq.
    + unfold record_ok.
      destruct (final_attempt job); simpl; rewrite ?Hnosent, ?Hnofail.
      * split; [lia|]. split; [split; discriminate|].
        split; [tauto|]. intros; contradiction.
      * split; [lia|]. split; [split; discriminate|].
        split; [split; discriminate|]. discriminate.
    + unfold final_attempt. simpl.
      destruct (Z.ltb_spec (Bull.attemptsMade job + 1)
                  (Bull.attempts (Bull.opts job))) as [Hl|Hl].
      * destruct (Z.leb_spec (Bull.attempts (Bull.opts job))
                    (Bull.attemptsMade job + 1)); [lia|].
        simpl. split; [lia|]. split; [lia | discriminate].
      * exact Hl.
Qed.

Lemma Inv_promote jid job q' w :
  Inv w ->
  Bull.jobs (queue w) !! jid = Some job ->
  Bull.promote job (queue w) = Some q' ->
  Inv (setQueueOf q' w).
Proof.
  intros HI Hjob Hp. pose proof HI as [Hrec Hjobs].
  destruct (Hjobs _ _ Hjob)
    as (Hidj & Hcnt & n & Hn & Hjid & Hbud & Hty & Hstate).
  subst jid. unfold Bull.promote in Hp.
  destruct (Bull.state job) eqn:Hst; try discriminate.
  injection Hp as <-.
  apply (Inv_update w _ job (Bull.with_state Bull.waiting job) n n); auto;
    try (now apply (Hrec _ _ Hn)).
  simpl. symmetry. now apply insert_id.
Qed.

Lemma retryFailedJob_frame jid w :
  Inv w ->
  db (snd (retryFailedJob jid w)) = db w
  /\ queue (snd (retryFailedJob jid w)) = queue w.
Proof.
  intros [_ Hjobs].
  unfold retryFailedJob, try_catch, bind, getQueue, setQueue, logger, ret,
    throw.
  simpl.
  destruct (Bull.jobs (queue w) !! jid) as [job|] eqn:Hjob; simpl;
    [|split; reflexivity].
  destruct (Z.ltb_spec (Bull.attemptsMade job) (Bull.attempts (Bull.opts job)))
    as [Hlt|Hge]; simpl; [|split; reflexivity].
  unfold Bull.retry.
  destruct (Hjobs _ _ Hjob) as (_ & _ & n & _ & _ & _ & _ & Hstate).
  destruct (Bull.state job); simpl; try (split; reflexivity).
  lia.
Qed.

Lemma Inv_retry jid w : Inv w -> Inv (snd (retryFailedJob jid w)).
Proof.
  intros HI. destruct (retryFailedJob_frame jid w HI) as [Hd Hq].
  now apply (Inv_ext w).
Qed.

Lemma type_name_in_app t : String.eqb (type_name t) "in-app" = true ->
  t = InApp.
Proof. destruct t; simpl; intros H; (reflexivity || discriminate). Qed.

Lemma Inv_read env uid nid w :
  Inv w -> Inv (snd (Routes.patchRead env uid nid w)).
Proof.
  intros HI. pose proof HI as [Hrec _].
  unfold Routes.patchRead, Routes.findOneInApp, try_catch, bind, findById,
    markAsSent, save, logger, ret.
  simpl.
  destruct (db w !! nid) as [n|] eqn:Hn; simpl; [|exact HI].
  destruct (String.eqb (userId n) uid
            && String.eqb (type_name (type n)) "in-app") eqn:Hmatch;
    simpl; [|exact HI].
  apply andb_true_iff in Hmatch as [_ Hty].
  apply type_name_in_app in Hty.
  destruct (Hrec _ _ Hn) as (Hid & Hbudget & Hsent & Hfailed & Hinapp).
  assert (Hnofail : is_set (failedAt n) = false).
  { destruct (is_set (failedAt n)); [|reflexivity].
    exfalso. apply (Hinapp Hty). now apply Hfailed. }
  apply (Inv_update_record w _ nid n (set_sent (now env) n)); auto;
    try (simpl; discriminate).
  - simpl. now rewrite Hid.
  - unfold record_ok. simpl. rewrite Hnofail.
    split; [exact Hbudget|]. split; [tauto|].
    split; [split; discriminate | discriminate].
Qed.

Lemma Inv_insert_fresh w w' k n :
  Inv w ->
  db w !! k = None ->
  _id n = k ->
  record_ok n ->
  db w' = <[k := n]> (db w) ->
  queue w' = queue w ->
  Inv w'.
Proof.
  intros [Hrec Hjobs] Hfresh Hid Hok Hdb Hq. split.
  - intros k2 m Hk. rewrite Hdb in Hk.
    destruct (decide (k2 = k)) as [->|Hne].
    + rewrite lookup_insert_eq in Hk. injection Hk as <-. now split.
    + rewrite lookup_insert_ne in Hk by congruence. now apply Hrec.
  - intros jid j Hj. rewrite Hq in Hj |- *.
    destruct (Hjobs _ _ Hj) as (Hidj & Hle & n2 & Hn2 & Hrest).
    split; [exact Hidj|]. split; [exact Hle|].
    exists n2. split; [|exact Hrest].
    rewrite Hdb, lookup_insert_ne; [exact Hn2 | congruence].
Qed.

Lemma record_ok_new env body :
  record_ok (Routes.newNotification env body).
Proof.
  unfold record_ok. simpl.
  split; [lia|]. repeat split; discriminate.
Qed.

Lemma record_ok_queued jid n :
  record_ok n -> status n <> Sent -> status n <> Failed ->
  record_ok (set_queued jid n).
Proof.
  unfold record_ok. simpl. intros (Hb & Hs & Hf & _) Hns Hnf.
  split; [exact Hb|].
  split; [split; [intros H; apply Hs in H; contradiction | discriminate]|].
  split; [split; [intros H; apply Hf in H; contradiction | discriminate]|].
  discriminate.
Qed.

(** What a submission leaves behind: nothing (the request was rejected),
    the new record alone (the queue refused the job), or the new record,
    queued, together with its job. *)
Lemma postNotification_cases env body w :
  let N := Routes.newNotification env body in
  let w' := snd (Routes.postNotification env body w) in
  (db w' = db w /\ queue w' = queue w)
  \/ (db w' = <[newId env := N]> (db w) /\ queue w' = queue w)
  \/ (exists job,
        Bull.id job = S (Bull.counter (queue w))
        /\ Bull.data job = jobData N
        /\ Bull.attempts (Bull.opts job) = maxAttempts N
        /\ Bull.attemptsMade job = 0%Z
        /\ Bull.state job = Bull.waiting
        /\ db w' = <[newId env := set_queued (Bull.id job) N]> (db w)
        /\ Bull.jobs (queue w')
           = <[Bull.id job := job]> (Bull.jobs (queue w))
        /\ Bull.counter (queue w') = S (Bull.counter (queue w))).
Proof.
  intros N w'. subst w'.
  unfold Routes.postNotification, addToQueue, try_catch, bind, save,
    getQueue, setQueue, logger, ret, throw.
  destruct (Routes.validateNotification body); simpl; [|left; now split].
  fold N. unfold Bull.add.
  destruct (Bull.priority (jobOptions N
              (Some (default "medium" (Routes.priority body)))))
    as [|p|?] eqn:Hp; simpl; try (right; left; now split).
  destruct (1 <=? p)%Z; simpl; [|right; left; now split].
  right. right.
  exists {| Bull.id := S (Bull.counter (queue w));
            Bull.name := "send-notification";
            Bull.data := jobData N;
            Bull.opts :=
              jobOptions N (Some (default "medium" (Routes.priority body)));
            Bull.attemptsMade := 0;
            Bull.state := Bull.waiting |}.
  simpl. repeat split. apply insert_insert_eq.
Qed.

Lemma Inv_submit env body w :
  Inv w ->
  db w !! newId env = None ->
  Inv (snd (Routes.postNotification env body w)).
Proof.
  intros HI Hfresh.
  destruct (postNotification_cases env body w)
    as [[Hd Hq] | [[Hd Hq] | (job & Hjid & Hdata & Hatt & Hmade & Hst & Hd
                              & Hjs & Hcnt)]].
  - now apply (Inv_ext w).
  - apply (Inv_insert_fresh w _ (newId env)
             (Routes.newNotification env body)); auto.
    apply record_ok_new.
  - set (N := Routes.newNotification env body) in *.
    set (w' := snd (Routes.postNotification env body w)) in *.
    assert (HI1 : Inv {| db := db w'; queue := queue w; calls := calls w;
                         log := log w |}).
    { apply (Inv_insert_fresh w _ (newId env) (set_queued (Bull.id job) N));
        auto.
      apply record_ok_queued; [apply record_ok_new | discriminate
                              | discriminate]. }
    destruct HI1 as [Hrec1 Hjobs1]. simpl in Hrec1, Hjobs1.
    split; [exact Hrec1|].
    intros jid j Hj. rewrite Hjs in Hj. rewrite Hcnt.
    destruct (decide (jid = Bull.id job)) as [->|Hne].
    + rewrite lookup_insert_eq in Hj. injection Hj as <-.
      split; [reflexivity|]. split; [lia|].
      exists (set_queued (Bull.id job) N).
      rewrite Hdata, Hatt, Hmade, Hst, Hd. simpl.
      rewrite lookup_insert_eq.
      repeat split; (lia || discriminate).
    + rewrite lookup_insert_ne in Hj by congruence.
      destruct (Hjobs1 _ _ Hj) as (Hidj & Hle & Hok).
      split; [exact Hidj|]. split; [lia|]. exact Hok.
Qed.

Lemma Inv_step w w' : step w w' -> Inv w -> Inv w'.
Proof.
  intros Hstep HI. destruct Hstep.
  - now apply Inv_submit.
  - now apply (Inv_runJob env jid job).
  - now apply (Inv_promote jid job).
  - now apply Inv_retry.
  - now apply Inv_read.
Qed.

Lemma Inv_rtc w0 w : rtc step w0 w -> Inv w0 -> Inv w.
Proof.
  induction 1 as [|x y z Hxy _ IH]; intros HI; [exact HI|].
  apply IH. now apply (Inv_step x).
Qed.

Lemma Inv_reachable w : reachable w -> Inv w.
Proof. intros H. apply (Inv_rtc initial w H). apply Inv_initial. Qed.

(** ** The attempt budget *)

Lemma record_ok_within_budget (n : Notification) :
  record_ok n -> within_budget n.
Proof. now intros (Hb & _). Qed.

(** C3: in every world the system can reach by submissions, worker runs,
    rescheduled retries, operator retries and read-marking requests, every
    record has [attempts <= maxAttempts]. *)
Theorem attempts_never_exceed_maxAttempts (w : World) (k : string)
  (n : Notification) :
  reachable w -> db w !! k = Some n -> within_budget n.
Proof.
  intros Hreach Hn.
  destruct (Inv_reachable w Hreach) as [Hrec _].
  destruct (Hrec k n Hn) as [_ Hok].
  now apply record_ok_within_budget.
Qed.

(** ** The two timestamps *)

Lemma record_ok_exclusive (n : Notification) :
  record_ok n -> timestamps_exclusive n.
Proof.
  intros (_ & Hsent & Hfailed & _).
  unfold timestamps_exclusive.
  destruct (is_set (sentAt n)) eqn:Es; destruct (is_set (failedAt n)) eqn:Ef;
    simpl.
  - assert (status n = Sent) by now apply Hsent.
    assert (status n = Failed) by now apply Hfailed.
    congruence.
  - split; reflexivity.
  - split; reflexivity.
  - split; [|reflexivity]. intros Ht.
    destruct (status n) eqn:Est; try discriminate.
    + assert (false = true) by now apply Hsent. discriminate.
    + assert (false = true) by now apply Hfailed. discriminate.
Qed.

(** C6: in every world the system can reach, a record whose status is
    [Sent] or [Failed] has exactly one of [sentAt] and [failedAt] set, and
    no record has both set. *)
Theorem sentAt_failedAt_exclusive (w : World) (k : string)
  (n : Notification) :
  reachable w -> db w !! k = Some n -> timestamps_exclusive n.
Proof.
  intros Hreach Hn.
  destruct (Inv_reachable w Hreach) as [Hrec _].
  destruct (Hrec k n Hn) as [_ Hok].
  now apply record_ok_exclusive.
Qed.


(** Three failed runs of a submitted SMS notification are an execution of
    the system. *)
Lemma reachable_run3 : reachable Examples.run3.
Proof.
  unfold reachable.
  apply (rtc_l _ _ Examples.good_sms_submitted).
  { apply (step_submit Examples.env0
             (Examples.body "sms" (Some "+14155550100")) initial).
    vm_compute; reflexivity. }
  apply (rtc_l _ _ Examples.run1).
  { apply (step_work (Examples.env_down 1 "timeout") 1
             (Examples.the_job 1 Examples.good_sms_submitted)
             Examples.good_sms_submitted); vm_compute; reflexivity. }
  apply (rtc_l _ _ Examples.back1).
  { apply (step_promote 1 (Examples.the_job 1 Examples.run1)
             (Bull.release (Examples.the_job 1 Examples.run1)
                (queue Examples.run1)) Examples.run1);
      vm_compute; reflexivity. }
  apply (rtc_l _ _ Examples.run2).
  { apply (step_work (Examples.env_down 2 "timeout") 1
             (Examples.the_job 1 Examples.back1) Examples.back1);
      vm_compute; reflexivity. }
  apply (rtc_l _ _ Examples.back2).
  { apply (step_promote 1 (Examples.the_job 1 Examples.run2)
             (Bull.release (Examples.the_job 1 Examples.run2)
                (queue Examples.run2)) Examples.run2);
      vm_compute; reflexivity. }
  apply (rtc_l _ _ Examples.run3).
  { apply (step_work (Examples.env_down 3 "connection reset") 1
             (Examples.the_job 1 Examples.back2) Examples.back2);
      vm_compute; reflexivity. }
  apply rtc_refl.
Defined.

Lemma attempts_never_exceed_maxAttempts_witness :
  within_budget (Examples.the_record "n1" Examples.run3).
Proof.
  apply (attempts_never_exceed_maxAttempts Examples.run3 "n1"
           (Examples.the_record "n1" Examples.run3)).
  - exact reachable_run3.
  - vm_compute; reflexivity.
Defined.

(** An in-app notification submitted, delivered and then marked as read is
    an execution of the system. *)
Lemma reachable_in_app_read : reachable Examples.in_app_read.
Proof.
  unfold reachable.
  apply (rtc_l _ _ Examples.in_app_submitted).
  { apply (step_submit Examples.env0 (Examples.body "in-app" None) initial).
    vm_compute; reflexivity. }
  apply (rtc_l _ _ Examples.in_app_delivered).
  { apply (step_work Examples.env0 1
             (Examples.the_job 1 Examples.in_app_submitted)
             Examples.in_app_submitted); vm_compute; reflexivity. }
  apply (rtc_l _ _ Examples.in_app_read).
  { apply (step_read (Examples.env_down 5 "") "u1" "n1"
             Examples.in_app_delivered). }
  apply rtc_refl.
Defined.

Lemma sentAt_failedAt_exclusive_witness :
  timestamps_exclusive (Examples.the_record "n1" Examples.in_app_read)
  /\ timestamps_exclusive (Examples.the_record "n1" Examples.run3).
Proof.
  split.
  - apply (sentAt_failedAt_exclusive Examples.in_app_read "n1"
             (Examples.the_record "n1" Examples.in_app_read)).
    + exact reachable_in_app_read.
    + vm_compute; reflexivity.
  - apply (sentAt_failedAt_exclusive Examples.run3 "n1"
             (Examples.the_record "n1" Examples.run3)).
    + exact reachable_run3.
    + vm_compute; reflexivity.
Defined.

(** The store in the middle of a run, after the attempt was counted and
    before the sender has answered, satisfies both properties as well. *)
Lemma mid_run_records_ok (w : World) (jid : nat) (job : Bull.Job)
  (n m : Notification) (k : string) :
  reachable w ->
  Bull.jobs (queue w) !! jid = Some job ->
  Bull.runnable job = true ->
  db w !! Bull.notificationId (Bull.data job) = Some n ->
  status n <> Sent ->
  db (attempting n w) !! k = Some m ->
  within_budget m /\ timestamps_exclusive m.
Proof.
  intros Hreach Hjob Hrun Hn Hs Hm.
  pose proof (Inv_reachable w Hreach) as [Hrec Hjobs].
  destruct (Hjobs _ _ Hjob) as (_ & _ & n0 & Hn0 & _ & Hbud & _ & Hstate).
  assert (n0 = n) by congruence. subst n0.
  unfold Bull.runnable in Hrun.
  destruct (Bull.state job); try discriminate.
  destruct Hstate as (Hlt & Hat & Hnf).
  destruct (Hrec _ _ Hn) as (Hid & _ & Hsent & Hfailed & _).
  simpl in Hm.
  destruct (decide (k = _id n)) as [->|Hne].
  - rewrite lookup_insert_eq in Hm. injection Hm as <-.
    unfold within_budget, timestamps_exclusive. simpl.
    split; [lia|]. split; [discriminate|].
    destruct (is_set (sentAt n)); [|reflexivity].
    exfalso. apply Hs. now apply Hsent.
  - rewrite lookup_insert_ne in Hm by congruence.
    destruct (Hrec _ _ Hm) as [_ Hok].
    split; [now apply record_ok_within_budget
           | now apply record_ok_exclusive].
Qed.

(** * Further properties of the code *)

(** ** Submissions *)




(** X2: a body that fails the validation is answered 400 and leaves the
    store, the queue, the channels and the log exactly as they were. *)
Theorem postNotification_invalid_body (env : Env) (b : Routes.Body)
  (w : World) :
  Routes.validateNotification b = false ->
  Routes.postNotification env b w = (Return Routes.r400, w).
Proof.
  intros Hv.
  unfold Routes.postNotification, try_catch, ret. now rewrite Hv.
Qed.

Lemma postNotification_invalid_body_witness :
  Routes.postNotification Examples.env0
    (Examples.body "email" (Some "a@b.com")) initial
  = (Return Routes.r400, initial).
Proof.
  apply (postNotification_invalid_body Examples.env0
           (Examples.body "email" (Some "a@b.com")) initial).
  reflexivity.
Defined.

(** X3: in a world the system can reach, a submission (whose new id is
    fresh) leaves every record and every job that already exists exactly
    as it was. *)
Theorem postNotification_keeps_existing (env : Env) (b : Routes.Body)
  (w : World) :
  reachable w ->
  db w !! newId env = None ->
  (forall k n, db w !! k = Some n ->
               db (snd (Routes.postNotification env b w)) !! k = Some n)
  /\ (forall jid j, Bull.jobs (queue w) !! jid = Some j ->
                    Bull.jobs (queue (snd (Routes.postNotification env b w)))
                      !! jid = Some j).
Proof.
  intros Hreach Hfresh.
  destruct (Inv_reachable w Hreach) as [_ Hjobs].
  destruct (postNotification_cases env b w)
    as [[Hd Hq] | [[Hd Hq] | (job & Hjid & _ & _ & _ & _ & Hd & Hjs & _)]].
  - rewrite Hd, Hq. now split.
  - rewrite Hd, Hq. split; [|now auto].
    intros k n Hk. rewrite lookup_insert_ne; [exact Hk | congruence].
  - rewrite Hd, Hjs. split.
    + intros k n Hk. rewrite lookup_insert_ne; [exact Hk | congruence].
    + intros jid j Hj. destruct (Hjobs _ _ Hj) as (_ & Hle & _).
      rewrite lookup_insert_ne; [exact Hj | lia].
Qed.

Lemma postNotification_keeps_existing_witness :
  (forall k n, db Examples.run3 !! k = Some n ->
     db (snd (Routes.postNotification
                (Samples.env_id "n2") (Examples.body "in-app" None)
                Examples.run3)) !! k = Some n)
  /\ (forall jid j, Bull.jobs (queue Examples.run3) !! jid = Some j ->
        Bull.jobs
          (queue (snd (Routes.postNotification
                         (Samples.env_id "n2")
                         (Examples.body "in-app" None) Examples.run3)))
          !! jid = Some j).
Proof.
  apply (postNotification_keeps_existing (Samples.env_id "n2")
           (Examples.body "in-app" None) Examples.run3).
  - exact reachable_run3.
  - vm_compute; reflexivity.
Defined.

(** ** Reading and deleting a record *)



Lemma deleteNotification_queue (nid : string) (w : World) :
  queue (snd (NotificationRoutes.deleteNotification nid w)) = queue w.
Proof.
  unfold NotificationRoutes.deleteNotification,
    NotificationRoutes.findByIdAndDelete, try_catch, bind, logger, ret.
  simpl. destruct (db w !! nid); reflexivity.
Qed.

(** X5: DELETE removes the record only: a job that refers to it stays in
    the queue, and every later run of that job throws
    [Notification not found], without a store write or a channel call. *)
Theorem deleteNotification_orphans_job (env : Env) (jid : nat)
  (job : Bull.Job) (w : World) :
  Bull.jobs (queue w) !! jid = Some job ->
  let w1 :=
    snd (NotificationRoutes.deleteNotification
           (Bull.notificationId (Bull.data job)) w) in
  Bull.jobs (queue w1) !! jid = Some job
  /\ fst (processNotification env (Bull.with_state Bull.active job) w1)
     = Throw ("Notification not found: "
              +:+ Bull.notificationId (Bull.data job))
  /\ db (runJob env job w1) = db w1
  /\ calls (runJob env job w1) = calls w1.
Proof.
  intros Hjob w1.
  assert (Hgone : db w1 !! Bull.notificationId (Bull.data job) = None).
  { subst w1.
    unfold NotificationRoutes.deleteNotification,
      NotificationRoutes.findByIdAndDelete, try_catch, bind, logger, ret.
    simpl.
    destruct (db w !! Bull.notificationId (Bull.data job)); simpl;
      apply lookup_delete_eq. }
  assert (Hq : queue w1 = queue w).
  { subst w1. apply (deleteNotification_queue _ w). }
  split; [now rewrite Hq|].
  unfold runJob.
  rewrite (processNotification_missing env
             (Bull.with_state Bull.active job) w1 Hgone).
  repeat split.
Qed.

Lemma deleteNotification_orphans_job_witness :
  fst (processNotification Examples.env0
         (Bull.with_state Bull.active
            (Examples.the_job 1 Examples.good_sms_submitted))
         (snd (NotificationRoutes.deleteNotification "n1"
                 Examples.good_sms_submitted)))
  = Throw "Notification not found: n1".
Proof.
  apply (deleteNotification_orphans_job Examples.env0 1
           (Examples.the_job 1 Examples.good_sms_submitted)
           Examples.good_sms_submitted).
  vm_compute; reflexivity.
Defined.

(** ** Marking in-app notifications as read *)

Lemma patchRead_eq (env : Env) (uid nid : string) (w : World) :
  Routes.patchRead env uid nid w =
  match db w !! nid with
  | Some n =>
      if String.eqb (userId n) uid
         && String.eqb (type_name (type n)) "in-app"
      then (Return Routes.r200,
            logged info ("In-app notification marked as read: " +:+ nid)
              (stored (set_sent (now env) n) w))
      else (Return Routes.r404, w)
  | None => (Return Routes.r404, w)
  end.
Proof.
  unfold Routes.patchRead, Routes.findOneInApp, try_catch, bind, findById,
    markAsSent, save, logger, ret.
  simpl. destruct (db w !! nid) as [n|]; simpl; [|reflexivity].
  destruct (String.eqb (userId n) uid
            && String.eqb (type_name (type n)) "in-app"); reflexivity.
Qed.

Lemma in_app_type (t : NType) :
  String.eqb (type_name t) "in-app" = true <-> t = InApp.
Proof. destruct t; simpl; split; congruence. Qed.



(** X7: an in-app notification that is marked as read while its job is
    still waiting is never delivered: the run of its job returns
    [already_sent], and no sender is entered and no broadcast made. *)
Theorem read_before_delivery_skips_sender (env env' : Env)
  (uid : string) (job : Bull.Job) (w : World) (n : Notification) :
  db w !! Bull.notificationId (Bull.data job) = Some n ->
  _id n = Bull.notificationId (Bull.data job) ->
  userId n = uid ->
  type n = InApp ->
  let w1 :=
    snd (Routes.patchRead env uid (Bull.notificationId (Bull.data job)) w) in
  fst (processNotification env' (Bull.with_state Bull.active job) w1)
    = Return already_sent
  /\ calls (runJob env' job w1) = calls w
  /\ db (runJob env' job w1) = db w1.
Proof.
  intros Hn Hid Hu Hty w1.
  assert (Hw1 : w1 = logged info
                  ("In-app notification marked as read: "
                   +:+ Bull.notificationId (Bull.data job))
                  (stored (set_sent (now env) n) w)).
  { subst w1. rewrite patchRead_eq, Hn, Hu, Hty. simpl.
    now rewrite String.eqb_refl. }
  assert (Hsent : db w1 !! Bull.notificationId (Bull.data job)
                  = Some (set_sent (now env) n)).
  { rewrite Hw1. simpl. rewrite Hid. apply lookup_insert_eq. }
  unfold runJob.
  rewrite (processNotification_sent_record env'
             (Bull.with_state Bull.active job) w1 _ Hsent eq_refl).
  simpl. split; [reflexivity|]. split; [|reflexivity].
  now rewrite Hw1.
Qed.

Lemma read_before_delivery_skips_sender_witness :
  fst (processNotification Examples.env0
         (Bull.with_state Bull.active
            (Examples.the_job 1 Examples.in_app_submitted))
         (snd (Routes.patchRead Examples.env0 "u1" "n1"
                 Examples.in_app_submitted)))
  = Return already_sent.
Proof.
  apply (read_before_delivery_skips_sender Examples.env0 Examples.env0 "u1"
           (Examples.the_job 1 Examples.in_app_submitted)
           Examples.in_app_submitted
           (Examples.the_record "n1" Examples.in_app_submitted));
    vm_compute; reflexivity.
Defined.



(** ** The unread count *)

Lemma unreadCount_replace (u nid : string) (n x : Notification)
  (w w' : World) :
  db w !! nid = Some n ->
  UserRoutes.unread u (nid, x) = false ->
  db w' = <[nid := x]> (db w) ->
  UserRoutes.unreadCount u w'
  = UserRoutes.unreadCount u w
    - (if UserRoutes.unread u (nid, n) then 1 else 0).
Proof.
  intros Hn Hx Hdb. unfold UserRoutes.unreadCount.
  rewrite Hdb, map_filter_insert_False by congruence.
  rewrite map_filter_delete, map_size_delete.
  destruct (UserRoutes.unread u (nid, n)) eqn:Hu.
  - rewrite (map_lookup_filter_Some_2 _ _ _ _ Hn Hu). simpl. lia.
  - rewrite (proj2 (map_lookup_filter_None _ _ _)); [simpl; lia|].
    right. intros y Hy. assert (y = n) by congruence. subst y. congruence.
Qed.

(** X9: a read-marking request lowers the unread count of its user by one
    when it names an unread in-app notification of that user, and leaves it
    unchanged otherwise; the unread count of every other user is never
    changed. *)
Theorem patchRead_unread_count (env : Env) (uid nid : string)
  (w : World) :
  (forall n, db w !! nid = Some n -> _id n = nid) ->
  UserRoutes.unreadCount uid (snd (Routes.patchRead env uid nid w))
  = UserRoutes.unreadCount uid w
    - match db w !! nid with
      | Some n => if UserRoutes.unread uid (nid, n) then 1 else 0
      | None => 0
      end
  /\ (forall u, u <> uid ->
        UserRoutes.unreadCount u (snd (Routes.patchRead env uid nid w))
        = UserRoutes.unreadCount u w).
Proof.
  intros Hkey. rewrite patchRead_eq.
  destruct (db w !! nid) as [n|] eqn:Hn; [|simpl; split; [lia | reflexivity]].
  pose proof (Hkey n eq_refl) as Hid.
  destruct (String.eqb_spec (userId n) uid) as [Hu|Hu]; simpl.
  - destruct (String.eqb (type_name (type n)) "in-app") eqn:Hty; simpl.
    + assert (Hdb : db (logged info
                          ("In-app notification marked as read: " +:+ nid)
                          (stored (set_sent (now env) n) w))
                    = <[nid := set_sent (now env) n]> (db w)).
      { simpl. now rewrite Hid. }
      split.
      * apply (unreadCount_replace uid nid n (set_sent (now env) n) w _ Hn);
          [|exact Hdb].
        unfold UserRoutes.unread, UserRoutes.matching. simpl.
        now rewrite andb_false_r.
      * intros u Hne.
        rewrite (unreadCount_replace u nid n (set_sent (now env) n) w _ Hn);
          [| |exact Hdb].
        -- unfold UserRoutes.unread, UserRoutes.matching. simpl.
           destruct (String.eqb_spec (userId n) u); [congruence|].
           simpl. lia.
        -- unfold UserRoutes.unread, UserRoutes.matching. simpl.
           now rewrite andb_false_r.
    + split; [|reflexivity].
      unfold UserRoutes.unread, UserRoutes.matching. simpl.
      rewrite Hty, andb_false_r. lia.
  - split; [|reflexivity].
    unfold UserRoutes.unread, UserRoutes.matching. simpl.
    destruct (String.eqb_spec (userId n) uid); [contradiction|].
    simpl. lia.
Qed.

Lemma patchRead_unread_count_witness :
  UserRoutes.unreadCount "u1"
    (snd (Routes.patchRead Examples.env0 "u1" "n1"
            Examples.in_app_submitted))
  = UserRoutes.unreadCount "u1" Examples.in_app_submitted
    - match db Examples.in_app_submitted !! "n1" with
      | Some n => if UserRoutes.unread "u1" ("n1", n) then 1 else 0
      | None => 0
      end.
Proof.
  apply (patchRead_unread_count Examples.env0 "u1" "n1"
           Examples.in_app_submitted).
  intros n Hn. vm_compute in Hn. injection Hn as <-. reflexivity.
Defined.

(** ** The listing of a user's notifications *)

Lemma ceil_div_gt (p T L : nat) :
  1 <= L -> (p < UserRoutes.ceil_div T L <-> p * L < T).
Proof.
  intros HL. unfold UserRoutes.ceil_div. split.
  - intros Hp.
    assert (H : L * S p <= T + L - 1).
    { etransitivity; [|apply (Nat.Div0.mul_div_le _ L)].
      apply Nat.mul_le_mono_l. lia. }
    rewrite Nat.mul_succ_r in H. lia.
  - intros Hp.
    apply (Nat.lt_le_trans _ (S p)); [lia|].
    apply Nat.div_le_lower_bound; [lia|].
    rewrite Nat.mul_succ_r. lia.
Qed.

Lemma pages_concat {A} (L : nat) (l : list A) (n : nat) :
  concat (List.map (fun p => take L (drop ((p - 1) * L) l)) (seq 1 n))
  = take (n * L) l.
Proof.
  induction n as [|n IH]; [reflexivity|].
  rewrite seq_S, List.map_app, concat_app, IH. simpl.
  rewrite app_nil_r, Nat.sub_0_r, take_take_drop.
  f_equal. lia.
Qed.

Lemma listing_fields (uid : string) (q : UserRoutes.Query)
  (docs : list Notification) (r : UserRoutes.Listing) :
  UserRoutes.getUserNotifications uid q docs = Some r ->
  UserRoutes.validateQuery q = true
  /\ 1 <= default 1 (UserRoutes.page q)
  /\ 1 <= default 10 (UserRoutes.limit q) <= 100
  /\ UserRoutes.notifications r
     = take (default 10 (UserRoutes.limit q))
         (drop ((default 1 (UserRoutes.page q) - 1)
                * default 10 (UserRoutes.limit q))
            (List.filter (UserRoutes.matching (UserRoutes.buildFilter uid q))
               docs))
  /\ UserRoutes.totalItems r
     = List.length
         (List.filter (UserRoutes.matching (UserRoutes.buildFilter uid q))
            docs)
  /\ UserRoutes.total r = UserRoutes.totalItems r
  /\ UserRoutes.totalPages r
     = UserRoutes.ceil_div (UserRoutes.totalItems r)
         (default 10 (UserRoutes.limit q))
  /\ UserRoutes.currentPage r = default 1 (UserRoutes.page q)
  /\ UserRoutes.hasNext r
     = (UserRoutes.currentPage r <? UserRoutes.totalPages r)
  /\ UserRoutes.hasPrev r = (1 <? UserRoutes.currentPage r)
  /\ UserRoutes.byStatus r = UserRoutes.statusCounts uid docs.
Proof.
  unfold UserRoutes.getUserNotifications.
  destruct (JsString.truthy (Some uid) && UserRoutes.validateQuery q)
    eqn:Hv; simpl; [|discriminate].
  intros H. injection H as <-. simpl.
  apply andb_true_iff in Hv as [_ Hv].
  split; [exact Hv|].
  unfold UserRoutes.validateQuery in Hv.
  apply andb_true_iff in Hv as [Hv _].
  apply andb_true_iff in Hv as [Hv _].
  apply andb_true_iff in Hv as [Hp Hl].
  split.
  { destruct (UserRoutes.page q) as [k|];
      unfold UserRoutes.optionalMin in Hp;
      [apply Nat.leb_le in Hp; exact Hp | cbn; lia]. }
  split.
  { destruct (UserRoutes.limit q) as [k|];
      unfold UserRoutes.optionalInt in Hl; [|cbn; lia].
    apply andb_true_iff in Hl as [H1 H2].
    apply Nat.leb_le in H1, H2. cbn. lia. }
  repeat split.
Qed.

(** X10: an answered page holds at most [limit] notifications ([limit] at
    most 100, 10 when not given); each of them is a document of the
    collection, belongs to the user of the request and satisfies the
    filter built from the query. *)
Theorem listing_page_is_sound (uid : string) (q : UserRoutes.Query)
  (docs : list Notification) (r : UserRoutes.Listing) :
  UserRoutes.getUserNotifications uid q docs = Some r ->
  List.length (UserRoutes.notifications r) <= default 10 (UserRoutes.limit q)
  /\ default 10 (UserRoutes.limit q) <= 100
  /\ List.Forall
       (fun n =>
          List.In n docs
          /\ userId n = uid
          /\ UserRoutes.matching (UserRoutes.buildFilter uid q) n = true)
       (UserRoutes.notifications r).
Proof.
  intros Hr.
  destruct (listing_fields uid q docs r Hr)
    as (_ & _ & [_ Hl] & Hn & _).
  rewrite Hn. split; [rewrite length_take; lia|]. split; [exact Hl|].
  apply Forall_take, Forall_drop. apply List.Forall_forall.
  intros n Hin. apply List.filter_In in Hin as [Hin Hm].
  split; [exact Hin|]. split; [|exact Hm].
  unfold UserRoutes.matching in Hm.
  apply andb_true_iff in Hm as [Hm _].
  apply andb_true_iff in Hm as [Hm _].
  apply String.eqb_eq in Hm. rewrite Hm.
  now destruct (JsString.truthy (UserRoutes.status q)),
    (JsString.truthy (UserRoutes.type q)),
    (match UserRoutes.unreadOnly q with
     | Some u => String.eqb u "true" | None => false end
     && match UserRoutes.type q with
        | Some t => String.eqb t "in-app" | None => false end).
Qed.

Lemma listing_page_is_sound_witness :
  exists r,
    UserRoutes.getUserNotifications "u1"
      (Samples.query (Some 2) (Some 5) None None None) Samples.inbox
    = Some r
    /\ List.length (UserRoutes.notifications r) <= 5.
Proof.
  eexists. split; [reflexivity|].
  apply (listing_page_is_sound "u1"
           (Samples.query (Some 2) (Some 5) None None None) Samples.inbox).
  reflexivity.
Defined.

Lemma with_page_filter (uid : string) (q : UserRoutes.Query) (p : nat) :
  UserRoutes.buildFilter uid (Paging.with_page p q)
  = UserRoutes.buildFilter uid q.
Proof. reflexivity. Qed.

Lemma page_of_eq (uid : string) (q : UserRoutes.Query)
  (docs : list Notification) (r : UserRoutes.Listing) (p : nat) :
  UserRoutes.getUserNotifications uid q docs = Some r ->
  1 <= p ->
  Paging.page_of uid q docs p
  = take (default 10 (UserRoutes.limit q))
      (drop ((p - 1) * default 10 (UserRoutes.limit q))
         (List.filter (UserRoutes.matching (UserRoutes.buildFilter uid q))
            docs)).
Proof.
  intros Hr Hp.
  destruct (listing_fields uid q docs r Hr) as (Hv & _).
  unfold Paging.page_of, UserRoutes.getUserNotifications.
  assert (Hu : JsString.truthy (Some uid) = true).
  { unfold UserRoutes.getUserNotifications in Hr.
    destruct (JsString.truthy (Some uid)); [reflexivity | discriminate]. }
  assert (Hv' : UserRoutes.validateQuery (Paging.with_page p q) = true).
  { unfold UserRoutes.validateQuery in *. simpl.
    apply andb_true_iff in Hv as [Hv H4].
    apply andb_true_iff in Hv as [Hv H3].
    apply andb_true_iff in Hv as [_ H2].
    rewrite H2, H3, H4.
    destruct p; [lia | reflexivity]. }
  rewrite Hu, Hv'. reflexivity.
Qed.

(** X11: the pages 1 to [totalPages] of a query, one after the other, are
    exactly the documents that satisfy its filter, in the order of the
    collection: no document is skipped and none appears twice. *)
Theorem listing_pages_cover (uid : string) (q : UserRoutes.Query)
  (docs : list Notification) (r : UserRoutes.Listing) :
  UserRoutes.getUserNotifications uid q docs = Some r ->
  concat (List.map (Paging.page_of uid q docs)
            (seq 1 (UserRoutes.totalPages r)))
  = List.filter (UserRoutes.matching (UserRoutes.buildFilter uid q)) docs.
Proof.
  intros Hr.
  destruct (listing_fields uid q docs r Hr)
    as (_ & _ & [HL _] & _ & Ht & _ & Hp & _).
  set (L := default 10 (UserRoutes.limit q)) in *.
  set (M := List.filter (UserRoutes.matching (UserRoutes.buildFilter uid q))
              docs) in *.
  rewrite (List.map_ext_in _ (fun p => take L (drop ((p - 1) * L) M))).
  - rewrite pages_concat. apply take_ge.
    rewrite Hp, Ht. fold M.
    destruct (Nat.le_gt_cases (List.length M)
                (UserRoutes.ceil_div (List.length M) L * L)) as [H|H];
      [exact H|].
    apply (ceil_div_gt _ _ _ HL) in H. lia.
  - intros p Hin. apply List.in_seq in Hin.
    apply (page_of_eq uid q docs r p Hr). lia.
Qed.

Lemma listing_pages_cover_witness :
  exists r,
    UserRoutes.getUserNotifications "u1"
      (Samples.query None (Some 5) None (Some "in-app") None) Samples.inbox
    = Some r
    /\ concat (List.map
                 (Paging.page_of "u1"
                    (Samples.query None (Some 5) None (Some "in-app") None)
                    Samples.inbox)
                 (seq 1 (UserRoutes.totalPages r)))
       = List.filter
           (UserRoutes.matching
              (UserRoutes.buildFilter "u1"
                 (Samples.query None (Some 5) None (Some "in-app") None)))
           Samples.inbox.
Proof.
  eexists. split; [reflexivity|].
  apply (listing_pages_cover "u1"
           (Samples.query None (Some 5) None (Some "in-app") None)
           Samples.inbox).
  reflexivity.
Defined.

Lemma take_drop_nil {A} (L k : nat) (l : list A) :
  1 <= L -> (take L (drop k l) = [] <-> List.length l <= k).
Proof.
  intros HL. split.
  - intros H. apply (f_equal (@List.length A)) in H.
    rewrite length_take, length_drop in H. simpl in H. lia.
  - intros H. rewrite drop_ge by exact H. now destruct L.
Qed.

(** X12: [hasNext] is true exactly when the next page holds a
    notification, [hasPrev] exactly when the page number is above 1, and a
    page is empty exactly when its number is above [totalPages]. *)
Theorem listing_page_flags (uid : string) (q : UserRoutes.Query)
  (docs : list Notification) (r : UserRoutes.Listing) :
  UserRoutes.getUserNotifications uid q docs = Some r ->
  (UserRoutes.hasNext r = true <->
   Paging.page_of uid q docs (UserRoutes.currentPage r + 1) <> [])
  /\ (UserRoutes.hasPrev r = true <-> 1 < UserRoutes.currentPage r)
  /\ (UserRoutes.notifications r = [] <->
      UserRoutes.totalPages r < UserRoutes.currentPage r).
Proof.
  intros Hr.
  destruct (listing_fields uid q docs r Hr)
    as (_ & Hp1 & [HL _] & Hn & Ht & _ & Hp & Hc & Hnext & Hprev & _).
  rewrite (page_of_eq uid q docs r _ Hr) by lia.
  rewrite Hnext, Hprev, Hn, Hp, Ht, Hc.
  set (L := default 10 (UserRoutes.limit q)) in *.
  set (P := default 1 (UserRoutes.page q)) in *.
  set (M := List.filter (UserRoutes.matching (UserRoutes.buildFilter uid q))
              docs) in *.
  rewrite Nat.ltb_lt, Nat.ltb_lt.
  rewrite (ceil_div_gt P (List.length M) L HL).
  rewrite !(take_drop_nil L _ M HL).
  replace (P + 1 - 1) with P by lia.
  split; [lia|]. split; [lia|].
  assert (H := ceil_div_gt (P - 1) (List.length M) L HL).
  lia.
Qed.

Lemma listing_page_flags_witness :
  exists r,
    UserRoutes.getUserNotifications "u1"
      (Samples.query (Some 3) (Some 5) None None None) Samples.inbox
    = Some r
    /\ (UserRoutes.notifications r = [] <->
        UserRoutes.totalPages r < UserRoutes.currentPage r).
Proof.
  eexists. split; [reflexivity|].
  apply (listing_page_flags "u1"
           (Samples.query (Some 3) (Some 5) None None None) Samples.inbox).
  reflexivity.
Defined.

(** X13: with [unreadOnly=true] and [type=in-app] the answer holds only
    in-app notifications that are not sent, whatever [status] the query
    asked for. *)
Theorem listing_unread_only (uid : string) (q : UserRoutes.Query)
  (docs : list Notification) (r : UserRoutes.Listing) :
  UserRoutes.getUserNotifications uid q docs = Some r ->
  UserRoutes.unreadOnly q = Some "true" ->
  UserRoutes.type q = Some "in-app" ->
  List.Forall (fun n => status n <> Sent /\ type n = InApp)
    (UserRoutes.notifications r).
Proof.
  intros Hr Hu Hty.
  destruct (listing_fields uid q docs r Hr) as (_ & _ & _ & Hn & _).
  rewrite Hn. apply Forall_take, Forall_drop. apply List.Forall_forall.
  intros n Hin. apply List.filter_In in Hin as [_ Hm].
  unfold UserRoutes.matching, UserRoutes.buildFilter in Hm.
  rewrite Hu, Hty in Hm. simpl in Hm.
  apply andb_true_iff in Hm as [Hm Ht].
  apply andb_true_iff in Hm as [_ Hs].
  split.
  - intros Heq. rewrite Heq in Hs. discriminate.
  - now apply in_app_type.
Qed.

Lemma listing_unread_only_witness :
  exists r,
    UserRoutes.getUserNotifications "u1"
      (Samples.query None None (Some "sent") (Some "in-app") (Some "true"))
      Samples.inbox
    = Some r
    /\ List.Forall (fun n => status n <> Sent /\ type n = InApp)
         (UserRoutes.notifications r).
Proof.
  eexists. split; [reflexivity|].
  apply (listing_unread_only "u1"
           (Samples.query None None (Some "sent") (Some "in-app")
              (Some "true")) Samples.inbox); reflexivity.
Defined.

Lemma sum_without_zeros {A} (l : list (A * nat)) :
  sum_list (List.map snd (List.filter (fun e => negb (snd e =? 0)) l))
  = sum_list (List.map snd l).
Proof.
  induction l as [|[a k] l IH]; [reflexivity|]. simpl.
  destruct k; simpl; lia.
Qed.

Lemma count_by_status (uid : string) (docs : list Notification) :
  sum_list
    (List.map
       (fun s =>
          List.length
            (List.filter
               (fun n => String.eqb (userId n) uid
                         && bool_decide (status n = s)) docs))
       UserRoutes.all_statuses)
  = List.length (List.filter (fun n => String.eqb (userId n) uid) docs).
Proof.
  induction docs as [|n docs IH]; [reflexivity|].
  simpl in IH |- *.
  destruct (String.eqb (userId n) uid); simpl; [|exact IH].
  destruct (status n); simpl; lia.
Qed.

Lemma filter_length_le {A} (f g : A -> bool) (l : list A) :
  (forall a, f a = true -> g a = true) ->
  List.length (List.filter f l) <= List.length (List.filter g l).
Proof.
  intros Hfg. induction l as [|a l IH]; [reflexivity|]. simpl.
  destruct (f a) eqn:Hf.
  - rewrite (Hfg a Hf). simpl. lia.
  - destruct (g a); simpl; lia.
Qed.

(** X14: in the summary of a listing, [byStatus] has an entry for each
    status that occurs among ALL notifications of the user, each with a
    positive count, and the counts add up to the number of the user's
    notifications; [total] counts only those that satisfy the filter, so
    it is at most that sum and can be smaller. *)
Theorem listing_summary (uid : string) (q : UserRoutes.Query)
  (docs : list Notification) (r : UserRoutes.Listing) :
  UserRoutes.getUserNotifications uid q docs = Some r ->
  sum_list (List.map snd (UserRoutes.byStatus r))
    = List.length (List.filter (fun n => String.eqb (userId n) uid) docs)
  /\ UserRoutes.total r <= sum_list (List.map snd (UserRoutes.byStatus r))
  /\ List.Forall (fun e => 0 < snd e) (UserRoutes.byStatus r).
Proof.
  intros Hr.
  destruct (listing_fields uid q docs r Hr)
    as (_ & _ & _ & _ & Ht & Htot & _ & _ & _ & _ & Hby).
  assert (Hsum : sum_list (List.map snd (UserRoutes.byStatus r))
                 = List.length
                     (List.filter (fun n => String.eqb (userId n) uid) docs)).
  { rewrite Hby. unfold UserRoutes.statusCounts.
    rewrite sum_without_zeros, List.map_map. simpl.
    apply count_by_status. }
  split; [exact Hsum|]. split.
  - rewrite Hsum, Htot, Ht. apply filter_length_le.
    intros n Hm. unfold UserRoutes.matching in Hm.
    apply andb_true_iff in Hm as [Hm _].
    apply andb_true_iff in Hm as [Hm _].
    exact Hm.
  - rewrite Hby. unfold UserRoutes.statusCounts.
    apply List.Forall_forall. intros e He.
    apply List.filter_In in He as [_ He].
    destruct (snd e); [discriminate | lia].
Qed.

Lemma listing_summary_witness :
  exists r,
    UserRoutes.getUserNotifications "u1"
      (Samples.query None None (Some "sent") None None) Samples.inbox
    = Some r
    /\ UserRoutes.total r = 6
    /\ sum_list (List.map snd (UserRoutes.byStatus r)) = 12.
Proof.
  eexists. split; [reflexivity|]. split; [reflexivity|].
  apply (listing_summary "u1"
           (Samples.query None None (Some "sent") None None) Samples.inbox).
  reflexivity.
Defined.

(** ** The channel senders *)

Lemma formatSMSMessage_length (message : string)
  (metadata : gmap string string) :
  String.length (formatSMSMessage message metadata) <= 1600.
Proof.
  unfold formatSMSMessage.
  destruct (1600 <? String.length (composed message metadata)) eqn:Hlong.
  - rewrite length_append, length_substring0.
    change (String.length "...") with 3. lia.
  - now apply Nat.ltb_ge in Hlong.
Qed.

Lemma sendSMS_eq (env : Env) (n : Notification) (w : World) :
  sendSMS env n w =
  let entered :=
    {| db := db w; queue := queue w;
       calls := calls w ++ [Invoke "sms" (_id n)]; log := log w |} in
  if negb (client env)
  then (Throw "SMS service not initialized",
        logged error "Failed to send SMS:" entered)
  else if negb (isValidPhoneNumber (Js.show (recipient n)))
  then (Throw ("Invalid phone number format: " +:+ Js.show (recipient n)),
        logged error "Failed to send SMS:" entered)
  else
    let handed :=
      {| db := db w; queue := queue w;
         calls := (calls w ++ [Invoke "sms" (_id n)])
                  ++ [MessagesCreate (recipient n)
                        (formatSMSMessage (message n) (metadata n))
                        (if JsString.truthy (metadata n !! "mediaUrl")
                         then metadata n !! "mediaUrl" else None)];
         log := log w |} in
    match transport env with
    | Accepted sid =>
        (Return (SmsInfo sid), logged info "SMS sent successfully" handed)
    | Rejected msg => (Throw msg, logged error "Failed to send SMS:" handed)
    end.
Proof.
  unfold sendSMS, messages_create, try_catch, bind, emit, throw, logger, ret.
  simpl.
  destruct (client env); simpl; [|reflexivity].
  destruct (isValidPhoneNumber (Js.show (recipient n))); simpl;
    [|reflexivity].
  destruct (transport env); reflexivity.
Qed.

(** X15: the SMS sender calls the transport at most once per send, and
    only with a recipient that passes the validation and a body of at most
    1600 characters; without a client, or with an invalid recipient, the
    transport is not called at all.  The sender never writes to the store
    or the queue. *)
Theorem sendSMS_transport_calls (env : Env) (n : Notification)
  (w : World) :
  (calls (snd (sendSMS env n w))
     = (calls w ++ [Invoke "sms" (_id n)])%list
   /\ (client env = false
       \/ isValidPhoneNumber (Js.show (recipient n)) = false)
   \/ exists body media,
        calls (snd (sendSMS env n w))
          = (calls w ++ [Invoke "sms" (_id n);
                         MessagesCreate (recipient n) body media])%list
        /\ client env = true
        /\ isValidPhoneNumber (Js.show (recipient n)) = true
        /\ body = formatSMSMessage (message n) (metadata n)
        /\ String.length body <= 1600)
  /\ db (snd (sendSMS env n w)) = db w
  /\ queue (snd (sendSMS env n w)) = queue w.
Proof.
  rewrite sendSMS_eq. cbv zeta.
  destruct (client env); simpl.
  - destruct (isValidPhoneNumber (Js.show (recipient n))); simpl.
    + split; [|destruct (transport env); now split].
      right. do 2 eexists.
      split; [destruct (transport env); simpl; now rewrite <- app_assoc|].
      repeat split. apply formatSMSMessage_length.
    + split; [|now split]. left. split; [reflexivity | now right].
  - split; [|now split]. left. split; [reflexivity | now left].
Qed.

Lemma sendEmail_eq (env : Env) (n : Notification) (w : World) :
  sendEmail env n w =
  let entered :=
    {| db := db w; queue := queue w;
       calls := calls w ++ [Invoke "email" (_id n)]; log := log w |} in
  if negb (transporter env)
  then (Throw "Email transporter not initialized",
        logged error "Failed to send email:" entered)
  else
    let handed :=
      {| db := db w; queue := queue w;
         calls := (calls w ++ [Invoke "email" (_id n)])
                  ++ [SendMail (recipient n) (subject n) (message n)];
         log := log w |} in
    match transport env with
    | Accepted mid =>
        (Return (EmailInfo mid), logged info "Email sent successfully" handed)
    | Rejected msg =>
        (Throw msg, logged error "Failed to send email:" handed)
    end.
Proof.
  unfold sendEmail, sendMail, try_catch, bind, emit, throw, logger, ret.
  simpl.
  destruct (transporter env); simpl; [|reflexivity].
  destruct (transport env); reflexivity.
Qed.

(** X16: when a delivery succeeds.  The dispatch on the job type returns
    exactly in these cases: type [email] with a transporter and a mail the
    transport accepts; type [sms] with a client, a recipient that passes
    the validation and a message the transport accepts; type [in-app],
    always.  Every other type, and every other situation, throws. *)
Theorem dispatch_returns_iff (env : Env) (ty : string)
  (n : Notification) (w : World) (r : SendResult) :
  fst (dispatch env ty n w) = Return r <->
  (ty = "email" /\ transporter env = true
   /\ exists mid, transport env = Accepted mid /\ r = EmailInfo mid)
  \/ (ty = "sms" /\ client env = true
      /\ isValidPhoneNumber (Js.show (recipient n)) = true
      /\ exists sid, transport env = Accepted sid /\ r = SmsInfo sid)
  \/ (ty = "in-app" /\ r = InAppInfo (_id n)).
Proof.
  unfold dispatch.
  destruct (String.eqb_spec ty "email") as [->|He].
  { rewrite sendEmail_eq. cbv zeta.
    destruct (transporter env); simpl.
    - destruct (transport env) as [mid|msg]; simpl; split.
      + intros H. injection H as <-. left. repeat split. now exists mid.
      + intros [(_ & _ & m & Hm & ->) | [(H & _) | (H & _)]];
          try discriminate.
        now injection Hm as <-.
      + discriminate.
      + intros [(_ & _ & m & Hm & _) | [(H & _) | (H & _)]]; discriminate.
    - split; [discriminate|].
      intros [(_ & H & _) | [(H & _) | (H & _)]]; discriminate. }
  destruct (String.eqb_spec ty "sms") as [->|Hs].
  { rewrite sendSMS_eq. cbv zeta.
    destruct (client env); simpl.
    - destruct (isValidPhoneNumber (Js.show (recipient n))); simpl.
      + destruct (transport env) as [sid|msg]; simpl; split.
        * intros H. injection H as <-. right. left. repeat split.
          now exists sid.
        * intros [(H & _) | [(_ & _ & _ & m & Hm & ->) | (H & _)]];
            try discriminate.
          now injection Hm as <-.
        * discriminate.
        * intros [(H & _) | [(_ & _ & _ & m & Hm & _) | (H & _)]];
            discriminate.
      + split; [discriminate|].
        intros [(H & _) | [(_ & _ & H & _) | (H & _)]]; discriminate.
    - split; [discriminate|].
      intros [(H & _) | [(_ & H & _) | (H & _)]]; discriminate. }
  destruct (String.eqb_spec ty "in-app") as [->|Hi].
  { simpl. split.
    - intros H. injection H as <-. right. right. now split.
    - intros [(H & _) | [(H & _) | (_ & ->)]];
        (discriminate || reflexivity). }
  simpl. split; [discriminate|].
  intros [(H & _) | [(H & _) | (H & _)]]; contradiction.
Qed.

(** ** What a worker run touches *)

(** X17: a worker run changes at most the record its job names and at
    most that job: every other record and every other job, and the job
    counter of the queue, are as before. *)
Theorem runJob_touches_one_record (env : Env) (job : Bull.Job)
  (w : World) :
  (forall n, db w !! Bull.notificationId (Bull.data job) = Some n ->
             _id n = Bull.notificationId (Bull.data job)) ->
  (forall k, k <> Bull.notificationId (Bull.data job) ->
             db (runJob env job w) !! k = db w !! k)
  /\ (forall j, j <> Bull.id job ->
                Bull.jobs (queue (runJob env job w)) !! j
                = Bull.jobs (queue w) !! j)
  /\ Bull.counter (queue (runJob env job w)) = Bull.counter (queue w).
Proof.
  intros Hkey.
  destruct (runJob_cases env job w Hkey)
    as [_ Hdb Hq | n _ _ Hdb Hq | n r _ _ _ Hdb Hq | n e _ _ _ _ Hdb Hq];
    rewrite Hdb, Hq; simpl;
    (split; [intros k Hk; rewrite ?lookup_insert_ne by congruence;
             reflexivity|]);
    (split; [|reflexivity]);
    intros j Hj; rewrite lookup_insert_ne by congruence; reflexivity.
Qed.

Lemma runJob_touches_one_record_witness :
  Bull.counter (queue Examples.run1)
  = Bull.counter (queue Examples.good_sms_submitted).
Proof.
  apply (runJob_touches_one_record (Examples.env_down 1 "timeout")
           (Examples.the_job 1 Examples.good_sms_submitted)
           Examples.good_sms_submitted).
  intros n Hn. vm_compute in Hn. injection Hn as <-. reflexivity.
Defined.

(** X18: a job whose type is none of [email], [sms], [in-app] throws
    [Unknown notification type] without entering a sender, and the attempt
    is counted on the record all the same. *)
Theorem unknown_type_counts_attempt (env : Env) (job : Bull.Job)
  (w : World) (n : Notification) :
  db w !! Bull.notificationId (Bull.data job) = Some n ->
  _id n = Bull.notificationId (Bull.data job) ->
  status n <> Sent ->
  Bull.type (Bull.data job) <> "email" ->
  Bull.type (Bull.data job) <> "sms" ->
  Bull.type (Bull.data job) <> "in-app" ->
  fst (processNotification env (Bull.with_state Bull.active job) w)
    = Throw ("Unknown notification type: " +:+ Bull.type (Bull.data job))
  /\ calls (runJob env job w) = calls w
  /\ exists n',
       db (runJob env job w) !! Bull.notificationId (Bull.data job)
         = Some n'
       /\ attempts n' = (attempts n + 1)%Z.
Proof.
  intros Hn Hid Hs He Hsms Hia.
  set (aj := Bull.with_state Bull.active job).
  assert (Hd : dispatch env (Bull.type (Bull.data aj)) (set_attempted n)
                 (attempting n w)
               = (Throw ("Unknown notification type: "
                         +:+ Bull.type (Bull.data job)),
                  attempting n w)).
  { change (Bull.type (Bull.data aj)) with (Bull.type (Bull.data job)).
    unfold dispatch.
    apply String.eqb_neq in He, Hsms, Hia. now rewrite He, Hsms, Hia. }
  pose proof (processNotification_failed env aj w n Hn Hid Hs _ _ Hd)
    as Hrun.
  unfold runJob. fold aj. rewrite Hrun.
  change (final_attempt aj) with (final_attempt job).
  split; [reflexivity|].
  destruct (final_attempt job); simpl.
  - split; [reflexivity|]. eexists.
    split; [rewrite <- Hid; apply lookup_insert_eq | reflexivity].
  - split; [reflexivity|]. eexists.
    split; [rewrite <- Hid; apply lookup_insert_eq | reflexivity].
Qed.

Lemma unknown_type_counts_attempt_witness :
  fst (processNotification Examples.env0
         (Bull.with_state Bull.active Samples.fax_job)
         Examples.good_sms_submitted)
  = Throw "Unknown notification type: fax".
Proof.
  apply (unknown_type_counts_attempt Examples.env0 Samples.fax_job
           Examples.good_sms_submitted
           (Examples.the_record "n1" Examples.good_sms_submitted));
    vm_compute; (reflexivity || discriminate).
Defined.

(** X19: what a run that returns leaves in the store.  If it returns
    [already_sent] the store is unchanged; if it returns [sent], the record
    was not sent before and is now the old record with one more attempt,
    status [Sent] and [sentAt] the time of the run, every other field,
    [errorMessage] and [failedAt] included, as it was. *)
Theorem returned_run_effect (env : Env) (job : Bull.Job) (w w' : World)
  (res : Processor.Result) :
  (forall n, db w !! Bull.notificationId (Bull.data job) = Some n ->
             _id n = Bull.notificationId (Bull.data job)) ->
  processNotification env job w = (Return res, w') ->
  match res with
  | already_sent =>
      db w' = db w
      /\ exists n, db w !! Bull.notificationId (Bull.data job) = Some n
                   /\ status n = Sent
  | sent nid r =>
      nid = Bull.notificationId (Bull.data job)
      /\ exists n,
           db w !! nid = Some n
           /\ status n <> Sent
           /\ db w' = <[nid := set_sent (now env) (set_attempted n)]> (db w)
  end
  /\ queue w' = queue w.
Proof.
  intros Hkey Hrun.
  destruct (db w !! Bull.notificationId (Bull.data job)) as [n|] eqn:Hn.
  - pose proof (Hkey n eq_refl) as Hid.
    destruct (decide (status n = Sent)) as [Hs|Hs].
    + rewrite (processNotification_sent_record env job w n Hn Hs) in Hrun.
      injection Hrun as <- <-. simpl.
      split; [|reflexivity]. split; [reflexivity|]. now exists n.
    + destruct (dispatch env (Bull.type (Bull.data job)) (set_attempted n)
                  (attempting n w)) as [[r|e] w2] eqn:Hd.
      * destruct (dispatch_db _ _ _ _ _ _ Hd) as [Hdb Hq].
        rewrite (processNotification_delivered env job w n Hn Hid Hs r w2 Hd)
          in Hrun.
        injection Hrun as <- <-. simpl.
        split; [|exact Hq]. split; [reflexivity|].
        exists n. split; [exact Hn|]. split; [exact Hs|].
        rewrite Hdb. simpl. rewrite Hid. apply insert_insert_eq.
      * rewrite (processNotification_failed env job w n Hn Hid Hs e w2 Hd)
          in Hrun.
        discriminate.
  - rewrite (processNotification_missing env job w Hn) in Hrun.
    discriminate.
Qed.

Lemma returned_run_effect_witness :
  match sent "n1" (InAppInfo "n1") with
  | already_sent =>
      db Examples.in_app_delivered = db Examples.in_app_submitted
      /\ exists n, db Examples.in_app_submitted !! "n1" = Some n
                   /\ status n = Sent
  | sent nid r =>
      nid = "n1"
      /\ exists n,
           db Examples.in_app_submitted !! nid = Some n
           /\ status n <> Sent
           /\ db (snd (processNotification Examples.env0
                         (Examples.the_job 1 Examples.in_app_submitted)
                         Examples.in_app_submitted))
              = <[nid := set_sent (now Examples.env0) (set_attempted n)]>
                  (db Examples.in_app_submitted)
  end
  /\ queue (snd (processNotification Examples.env0
                   (Examples.the_job 1 Examples.in_app_submitted)
                   Examples.in_app_submitted))
     = queue Examples.in_app_submitted.
Proof.
  apply (returned_run_effect Examples.env0
           (Examples.the_job 1 Examples.in_app_submitted)
           Examples.in_app_submitted
           (snd (processNotification Examples.env0
                   (Examples.the_job 1 Examples.in_app_submitted)
                   Examples.in_app_submitted))
           (sent "n1" (InAppInfo "n1"))).
  - intros n Hn. vm_compute in Hn. injection Hn as <-. reflexivity.
  - vm_compute; reflexivity.
Defined.

(** ** Operator retries *)

(** X20: in every world the system can reach, [retryFailedJob] never
    retries anything: it returns [false] for an unknown job and for a job
    whose attempts are used up, which is the case of every failed job, and
    throws for a job that has attempts left, because such a job is not in
    the failed state.  Store and queue are left as they were. *)
Theorem retryFailedJob_never_retries (jid : nat) (w : World) :
  reachable w ->
  fst (retryFailedJob jid w) <> Return true
  /\ (fst (retryFailedJob jid w) = Return false <->
      match Bull.jobs (queue w) !! jid with
      | Some job =>
          (Bull.attempts (Bull.opts job) <= Bull.attemptsMade job)%Z
      | None => True
      end)
  /\ (forall job, Bull.jobs (queue w) !! jid = Some job ->
                  Bull.state job = Bull.failed ->
                  fst (retryFailedJob jid w) = Return false)
  /\ db (snd (retryFailedJob jid w)) = db w
  /\ queue (snd (retryFailedJob jid w)) = queue w.
Proof.
  intros Hreach. pose proof (Inv_reachable w Hreach) as HI.
  destruct (retryFailedJob_frame jid w HI) as [Hd Hq].
  destruct HI as [_ Hjobs].
  assert (Hres :
    fst (retryFailedJob jid w) =
    match Bull.jobs (queue w) !! jid with
    | Some job =>
        if (Bull.attemptsMade job <? Bull.attempts (Bull.opts job))%Z
        then Throw "Couldn't retry job" else Return false
    | None => Return false
    end).
  { unfold retryFailedJob, try_catch, bind, getQueue, setQueue, logger, ret,
      throw.
    simpl.
    destruct (Bull.jobs (queue w) !! jid) as [job|] eqn:Hjob; simpl;
      [|reflexivity].
    destruct (Z.ltb_spec (Bull.attemptsMade job)
                (Bull.attempts (Bull.opts job))) as [Hlt|Hge]; simpl;
      [|reflexivity].
    unfold Bull.retry.
    destruct (Hjobs _ _ Hjob) as (_ & _ & n & _ & _ & _ & _ & Hstate).
    destruct (Bull.state job); simpl; try reflexivity. lia. }
  rewrite Hres.
  destruct (Bull.jobs (queue w) !! jid) as [job|] eqn:Hjob.
  - destruct (Z.ltb_spec (Bull.attemptsMade job)
                (Bull.attempts (Bull.opts job))) as [Hlt|Hge].
    + split; [discriminate|]. split; [split; [discriminate | lia]|].
      split; [|now split].
      intros j Hj Hst. injection Hj as <-.
      destruct (Hjobs _ _ Hjob) as (_ & _ & n & _ & _ & _ & _ & Hstate).
      rewrite Hst in Hstate. lia.
    + split; [discriminate|]. split; [split; [lia | reflexivity]|].
      split; [reflexivity | now split].
  - split; [discriminate|]. split; [tauto|].
    split; [discriminate | now split].
Qed.

Lemma retryFailedJob_never_retries_witness :
  fst (retryFailedJob 1 Examples.run3) <> Return true.
Proof.
  apply (retryFailedJob_never_retries 1 Examples.run3).
  exact reachable_run3.
Defined.

(** ** Terminal statuses *)

Lemma reachable_in_app_delivered : reachable Examples.in_app_delivered.
Proof.
  unfold reachable.
  apply (rtc_l _ _ Examples.in_app_submitted).
  { apply (step_submit Examples.env0 (Examples.body "in-app" None) initial).
    vm_compute; reflexivity. }
  apply (rtc_l _ _ Examples.in_app_delivered).
  { apply (step_work Examples.env0 1
             (Examples.the_job 1 Examples.in_app_submitted)
             Examples.in_app_submitted); vm_compute; reflexivity. }
  apply rtc_refl.
Defined.

(** X21: a failed record is never changed again: whatever the system does
    next (a submission, a worker run, a rescheduling, an operator retry, a
    read-marking request), the record stays exactly as it is. *)
Theorem failed_record_is_frozen (w w' : World) (k : string)
  (n : Notification) :
  reachable w ->
  step w w' ->
  db w !! k = Some n ->
  status n = Failed ->
  db w' !! k = Some n.
Proof.
  intros Hreach Hstep Hn Hf.
  pose proof (Inv_reachable w Hreach) as HI.
  pose proof HI as [Hrec Hjobs].
  destruct Hstep as [env body w Hfresh | env jid job w Hjob Hrun
                    | jid job q' w Hjob Hp | jid w | env uid nid w].
  - destruct (postNotification_cases env body w)
      as [[Hd _] | [[Hd _] | (job & _ & _ & _ & _ & _ & Hd & _)]];
      rewrite Hd; try exact Hn;
      (rewrite lookup_insert_ne; [exact Hn | congruence]).
  - destruct (Hjobs _ _ Hjob) as (_ & _ & m & Hm & _ & _ & _ & Hstate).
    unfold Bull.runnable in Hrun.
    destruct (Bull.state job); try discriminate.
    destruct Hstate as (_ & _ & Hnf).
    assert (Hkey : forall x,
               db w !! Bull.notificationId (Bull.data job) = Some x ->
               _id x = Bull.notificationId (Bull.data job)).
    { intros x Hx. now apply (Hrec _ _ Hx). }
    assert (Hne : k <> Bull.notificationId (Bull.data job)).
    { intros ->. congruence. }
    destruct (runJob_cases env job w Hkey)
      as [_ Hdb _ | x _ _ Hdb _ | x r _ _ _ Hdb _ | x e _ _ _ _ Hdb _];
      rewrite Hdb; try exact Hn;
      (rewrite lookup_insert_ne; [exact Hn | congruence]).
  - exact Hn.
  - destruct (retryFailedJob_frame jid w HI) as [Hd _]. now rewrite Hd.
  - rewrite patchRead_eq.
    destruct (db w !! nid) as [m|] eqn:Hm; [|exact Hn].
    destruct (String.eqb (userId m) uid
              && String.eqb (type_name (type m)) "in-app") eqn:Hmatch;
      [|exact Hn].
    simpl.
    destruct (Hrec _ _ Hm) as (Hid & _ & _ & _ & Hinapp).
    apply andb_true_iff in Hmatch as [_ Hty]. apply in_app_type in Hty.
    rewrite lookup_insert_ne; [exact Hn|].
    rewrite Hid. intros <-.
    assert (m = n) by congruence. subst m. now apply Hinapp.
Qed.

Lemma failed_record_is_frozen_witness :
  db (snd (retryFailedJob 1 Examples.run3)) !! "n1"
  = Some (Examples.the_record "n1" Examples.run3).
Proof.
  apply (failed_record_is_frozen Examples.run3
           (snd (retryFailedJob 1 Examples.run3)) "n1"
           (Examples.the_record "n1" Examples.run3)).
  - exact reachable_run3.
  - apply step_retry.
  - vm_compute; reflexivity.
  - vm_compute; reflexivity.
Defined.

(** X22: a sent record stays sent: no step of the system gives it another
    status, counts another attempt on it or gives it a [failedAt]; the only
    thing that can still change is [sentAt], which a read-marking request
    sets to the time of the request. *)
Theorem sent_record_stays_sent (w w' : World) (k : string)
  (n : Notification) :
  reachable w ->
  step w w' ->
  db w !! k = Some n ->
  status n = Sent ->
  db w' !! k = Some n
  \/ exists t, db w' !! k = Some (set_sent t n).
Proof.
  intros Hreach Hstep Hn Hs.
  pose proof (Inv_reachable w Hreach) as HI.
  pose proof HI as [Hrec Hjobs].
  destruct Hstep as [env body w Hfresh | env jid job w Hjob Hrun
                    | jid job q' w Hjob Hp | jid w | env uid nid w].
  - left.
    destruct (postNotification_cases env body w)
      as [[Hd _] | [[Hd _] | (job & _ & _ & _ & _ & _ & Hd & _)]];
      rewrite Hd; try exact Hn;
      (rewrite lookup_insert_ne; [exact Hn | congruence]).
  - left.
    assert (Hkey : forall x,
               db w !! Bull.notificationId (Bull.data job) = Some x ->
               _id x = Bull.notificationId (Bull.data job)).
    { intros x Hx. now apply (Hrec _ _ Hx). }
    destruct (runJob_cases env job w Hkey)
      as [_ Hdb _ | x _ _ Hdb _ | x r Hx Hxs _ Hdb _
          | x e Hx Hxs _ _ Hdb _];
      rewrite Hdb; try exact Hn;
      (rewrite lookup_insert_ne; [exact Hn|]);
      intros <-; congruence.
  - left. exact Hn.
  - left. destruct (retryFailedJob_frame jid w HI) as [Hd _].
    now rewrite Hd.
  - rewrite patchRead_eq.
    destruct (db w !! nid) as [m|] eqn:Hm; [|now left].
    destruct (String.eqb (userId m) uid
              && String.eqb (type_name (type m)) "in-app"); [|now left].
    simpl.
    destruct (Hrec _ _ Hm) as (Hid & _).
    destruct (decide (k = nid)) as [->|Hne].
    + right. exists (now env).
      assert (m = n) by congruence. subst m.
      rewrite Hid. apply lookup_insert_eq.
    + left. rewrite lookup_insert_ne; [exact Hn | congruence].
Qed.

Lemma sent_record_stays_sent_witness :
  db Examples.in_app_read !! "n1"
    = Some (Examples.the_record "n1" Examples.in_app_delivered)
  \/ exists t,
       db Examples.in_app_read !! "n1"
       = Some (set_sent t (Examples.the_record "n1" Examples.in_app_delivered)).
Proof.
  apply (sent_record_stays_sent Examples.in_app_delivered
           Examples.in_app_read "n1"
           (Examples.the_record "n1" Examples.in_app_delivered)).
  - exact reachable_in_app_delivered.
  - apply (step_read (Examples.env_down 5 "") "u1" "n1"
             Examples.in_app_delivered).
  - vm_compute; reflexivity.
  - vm_compute; reflexivity.
Defined.

(** ** Titles of in-app notifications *)

Lemma before_dot_length (s : string) :
  String.length (InApp.before_dot s) <= String.length s.
Proof.
  induction s as [|c s IH]; simpl; [lia|].
  destruct (Ascii.eqb c "."); simpl; lia.
Qed.

Lemma titleMap_text (c : string) :
  Js.inherited c = false ->
  exists t, InApp.get_or InApp.titleMap c "Notification" = InApp.Text t
            /\ String.length t <= 50.
Proof.
  intros Hinh. unfold InApp.get_or, InApp.titleMap.
  cbn [List.find fst snd].
  destruct (String.eqb c "system");
    [eexists; split; [reflexivity | cbn; lia]|].
  destruct (String.eqb c "marketing");
    [eexists; split; [reflexivity | cbn; lia]|].
  destruct (String.eqb c "update");
    [eexists; split; [reflexivity | cbn; lia]|].
  destruct (String.eqb c "reminder");
    [eexists; split; [reflexivity | cbn; lia]|].
  destruct (String.eqb c "alert");
    [eexists; split; [reflexivity | cbn; lia]|].
  destruct (String.eqb c "social");
    [eexists; split; [reflexivity | cbn; lia]|].
  destruct (String.eqb c "general");
    [eexists; split; [reflexivity | cbn; lia]|].
  rewrite Hinh. eexists; split; [reflexivity | cbn; lia].
Qed.

(** X23: the generated title of an in-app notification is a text of at
    most 50 characters, unless the category is a name inherited from
    [Object.prototype].  Without a category it is the message up to its
    first period when that has at most 50 characters, and otherwise the
    first 47 characters of the message followed by ["..."], 50 characters
    in all. *)
Theorem generateTitle_at_most_50 (n : Notification)
  (metadata : gmap string string) :
  Js.inherited (Js.show (metadata !! "category")) = false ->
  exists t,
    InApp.generateTitle n metadata = InApp.Text t
    /\ String.length t <= 50
    /\ (JsString.truthy (metadata !! "category") = false ->
        (String.length (InApp.before_dot (message n)) <= 50
         /\ t = InApp.before_dot (message n))
        \/ (50 < String.length (InApp.before_dot (message n))
            /\ t = JsString.substring 0 47 (message n) +:+ "..."
            /\ String.length t = 50)).
Proof.
  intros Hinh. unfold InApp.generateTitle.
  destruct (JsString.truthy (metadata !! "category")) eqn:Hcat.
  - destruct (titleMap_text _ Hinh) as (t & Ht & Hlen).
    exists t. split; [exact Ht|]. split; [exact Hlen | discriminate].
  - cbv zeta.
    destruct (Nat.leb_spec (String.length (InApp.before_dot (message n))) 50)
      as [Hle|Hgt].
    + eexists. split; [reflexivity|]. split; [exact Hle|].
      intros _. left. now split.
    + pose proof (before_dot_length (message n)) as Hb.
      assert (Hlen : String.length
                       (JsString.substring 0 47 (message n) +:+ "...") = 50).
      { rewrite length_append, length_substring0.
        change (String.length "...") with 3. lia. }
      eexists. split; [reflexivity|]. split; [lia|].
      intros _. right. repeat split; [lia | exact Hlen].
Qed.

Lemma generateTitle_at_most_50_witness :
  exists t,
    InApp.generateTitle (Examples.note "n" InApp None Medium) ∅
      = InApp.Text t
    /\ String.length t <= 50
    /\ (JsString.truthy ((∅ : gmap string string) !! "category") = false ->
        (String.length (InApp.before_dot "Hi") <= 50
         /\ t = InApp.before_dot "Hi")
        \/ (50 < String.length (InApp.before_dot "Hi")
            /\ t = JsString.substring 0 47 "Hi" +:+ "..."
            /\ String.length t = 50)).
Proof.
  apply (generateTitle_at_most_50 (Examples.note "n" InApp None Medium) ∅).
  vm_compute; reflexivity.
Defined.

(** ** Truncated SMS bodies *)

Lemma substring_prefix (k : nat) (s : string) :
  exists rest, s = String.substring 0 k s +:+ rest.
Proof.
  revert s. induction k as [|k IH]; intros [|c s]; simpl.
  - now exists "".
  - now exists (String c s).
  - now exists "".
  - destruct (IH s) as [rest Hrest]. exists rest.
    change (String c s = String c (String.substring 0 k s +:+ rest)).
    now rewrite <- Hrest.
Qed.

(** X24: when the composed text is longer than 1600 characters, the body
    is exactly 1600 characters long: the first 1597 characters of the
    composed text followed by ["..."]; whatever came after them, such as a
    short URL at the end, is cut off. *)
Theorem formatSMSMessage_truncated (message : string)
  (metadata : gmap string string) :
  1600 < String.length (composed message metadata) ->
  String.length (formatSMSMessage message metadata) = 1600
  /\ exists front rest,
       formatSMSMessage message metadata = front +:+ "..."
       /\ composed message metadata = front +:+ rest
       /\ String.length front = 1597
       /\ 3 < String.length rest.
Proof.
  intros Hlong. unfold formatSMSMessage.
  set (text := composed message metadata) in *.
  destruct (Nat.ltb_spec 1600 (String.length text)) as [_|Hle]; [|lia].
  assert (Hfront : String.length (JsString.substring 0 (1600 - 3) text)
                   = 1597).
  { rewrite length_substring0. lia. }
  split.
  - rewrite length_append, Hfront. reflexivity.
  - destruct (substring_prefix (1600 - 3) text) as [rest Hrest].
    exists (JsString.substring 0 (1600 - 3) text), rest.
    split; [reflexivity|]. split; [exact Hrest|]. split; [exact Hfront|].
    apply (f_equal String.length) in Hrest.
    rewrite length_append in Hrest.
    change (String.substring 0 (1600 - 3) text)
      with (JsString.substring 0 (1600 - 3) text) in Hrest.
    lia.
Qed.

Lemma formatSMSMessage_truncated_witness :
  String.length (formatSMSMessage Samples.long_message ∅) = 1600.
Proof.
  apply (formatSMSMessage_truncated Samples.long_message ∅).
  apply Nat.ltb_lt. vm_compute. reflexivity.
Defined.

(** ** The message inside the HTML mail *)

(** X25: replacing the newlines of the message by [<br>] leaves no newline
    behind, lengthens the text by three characters for each newline, and
    changes nothing in a message without newlines. *)
Theorem nl2br_removes_newlines (message : string) :
  EmailBody.count_char "010" (EmailBody.nl2br message) = 0
  /\ String.length (EmailBody.nl2br message)
     = String.length message + 3 * EmailBody.count_char "010" message
  /\ (EmailBody.count_char "010" message = 0 ->
      EmailBody.nl2br message = message).
Proof.
  induction message as [|c s (IH1 & IH2 & IH3)]; [repeat split|].
  cbn [EmailBody.nl2br EmailBody.count_char String.length].
  destruct (Ascii.eqb c "010") eqn:Hc.
  - change ("<br>" +:+ EmailBody.nl2br s)
      with (String "<" (String "b" (String "r"
              (String ">" (EmailBody.nl2br s))))).
    cbn [EmailBody.count_char String.length].
    change (Ascii.eqb "<" "010") with false.
    change (Ascii.eqb "b" "010") with false.
    change (Ascii.eqb "r" "010") with false.
    change (Ascii.eqb ">" "010") with false.
    split; [simpl; exact IH1|]. split; [rewrite IH2; lia | discriminate].
  - cbn [EmailBody.count_char String.length]. rewrite Hc.
    split; [simpl; exact IH1|]. split; [rewrite IH2; lia|].
    intros H. simpl in H. now rewrite IH3.
Qed.

(** ** From submission to delivery *)



